(** * TP2 Atelier Avancee SD: the sales warehouse ETL and its OLAP cube

    A shallow embedding of [etl_script.py] (run_etl) and of the data part of
    [dashboard.py] (load_and_merge_data and the filters, KPIs and group-bys
    of main), followed by the properties of the pipeline.

    Modelling conventions.
    - A DataFrame is a list of rows, a row is a record with one field per
      column; a cell that pandas shows as NaN/NaT is [None].  The columns
      are those the programs name; a file with other headers is outside
      the model.
    - The extracts quote every field, so [read_csv] with QUOTE_NONE returns
      text columns: a raw cell is a text, or NaN where the field is an NA
      marker.
    - Numbers produced by [pd.to_numeric] are exact rationals ([Qc]);
      floating-point rounding is outside the model.
    - A text cell is a [string] of bytes (UTF-8), compared bytewise, which
      is the code-point order Python uses.
    - The parsers of pandas ([pd.to_numeric] on one cell, [pd.to_datetime]
      on one cell, the NA markers of [pd.read_csv]) are parameters of the
      development: every general theorem holds for all of them.  A cell is
      read on its own: what a parser makes of a cell does not depend on the
      other cells of its column.  Small concrete parsers are supplied to
      run the model on examples.
    - [sort_values] and [sorted] are modelled by a stable sort.
    - A file is modelled by the table it serialises: [to_csv] is a function
      of the table it writes, so equal tables are equal files. *)

From Stdlib Require Import List ZArith QArith Qcanon Qround String Ascii Bool.
From Stdlib Require Import Lia Permutation Sorted OrdersEx.
Import ListNotations.

Local Open Scope string_scope.
Local Open Scope list_scope.

(* ================================================================== *)
(** ** Generic column operations *)
(* ================================================================== *)

Section Columns.
Context {A : Type}.
Variable eq_dec : forall x y : A, {x = y} + {x <> y}.

(** [Series.unique()] and [DataFrame.drop_duplicates()]: values in order of
    first appearance; [seen] is the table of values already emitted. *)
Fixpoint unique_from (seen : list A) (l : list A) : list A :=
  match l with
  | [] => []
  | x :: l' =>
      if in_dec eq_dec x seen then unique_from seen l'
      else x :: unique_from (x :: seen) l'
  end.

Definition unique (l : list A) : list A := unique_from [] l.

Definition drop_duplicates (df : list A) : list A := unique df.

(** [Series.isin(values)] on a nullable cell: NaN is in no list of values. *)
Definition isin (c : option A) (values : list A) : bool :=
  match c with
  | Some v => if in_dec eq_dec v values then true else false
  | None => false
  end.

End Columns.

(** [Series.dropna()]: the non-null cells, in order. *)
Fixpoint dropna {A : Type} (col : list (option A)) : list A :=
  match col with
  | [] => []
  | Some v :: col' => v :: dropna col'
  | None :: col' => dropna col'
  end.

Section Sorting.
Context {A : Type}.
Variable leb : A -> A -> bool.

(** A stable sort: [x] is put in front of the first element it is [leb]
    to, so rows with equal keys keep their input order. *)
Fixpoint insert_sorted (x : A) (l : list A) : list A :=
  match l with
  | [] => [x]
  | y :: l' => if leb x y then x :: l else y :: insert_sorted x l'
  end.

Fixpoint sort_by (l : list A) : list A :=
  match l with
  | [] => []
  | x :: l' => insert_sorted x (sort_by l')
  end.

End Sorting.

(** [pd.merge(left, right, on=key, how='left')]: every left row, in order,
    paired with each right row whose key matches (in right order), or with
    a null right part when none matches. *)
Definition merge_left {L R : Type} (on : L -> R -> bool)
    (left : list L) (right : list R) : list (L * option R) :=
  flat_map
    (fun l =>
       match filter (on l) right with
       | [] => [(l, None)]
       | ms => map (fun r => (l, Some r)) ms
       end)
    left.

(* ================================================================== *)
(** ** Text cells *)
(* ================================================================== *)

Definition dquote : ascii := ascii_of_nat 34.

(** [str.replace] of the double quote character by the empty text. *)
Fixpoint remove_quotes (s : string) : string :=
  match s with
  | EmptyString => EmptyString
  | String c s' =>
      if Ascii.eqb c dquote then remove_quotes s'
      else String c (remove_quotes s')
  end.

(** Whitespace of [str.strip()] among the one-byte characters: TAB..CR,
    FS..US and the space. *)
Definition is_space (c : ascii) : bool :=
  let n := nat_of_ascii c in
  ((9 <=? n) && (n <=? 13) || (28 <=? n) && (n <=? 32))%nat.

Fixpoint lstrip (s : list ascii) : list ascii :=
  match s with
  | c :: s' => if is_space c then lstrip s' else s
  | [] => []
  end.

Definition strip (s : string) : string :=
  string_of_list_ascii
    (rev (lstrip (rev (lstrip (list_ascii_of_string s))))).

(** [astype(str)]: a NaN of an object column becomes the text nan. *)
Definition astype_str (c : option string) : string :=
  match c with
  | Some s => s
  | None => "nan"
  end.

(** One cell of [clean_quotes]: [astype(str)], then every double quote
    removed, then [str.strip()]. *)
Definition clean_cell (c : option string) : string :=
  strip (remove_quotes (astype_str c)).

(* ================================================================== *)
(** ** Timestamps *)
(* ================================================================== *)

(** A parsed [Timestamp]: its calendar fields and the time of day. *)
Record Timestamp : Type := mkTimestamp {
  ts_year : Z;
  ts_month : Z;
  ts_day : Z;
  ts_time : Z
}.

Definition Timestamp_eq_dec (a b : Timestamp) : {a = b} + {a <> b}.
Proof. decide equality; apply Z.eq_dec. Defined.

(** Chronological order, field by field. *)
Definition ts_compare (a b : Timestamp) : comparison :=
  match (ts_year a ?= ts_year b)%Z with
  | Eq =>
      match (ts_month a ?= ts_month b)%Z with
      | Eq =>
          match (ts_day a ?= ts_day b)%Z with
          | Eq => (ts_time a ?= ts_time b)%Z
          | c => c
          end
      | c => c
      end
  | c => c
  end.

Definition ts_leb (a b : Timestamp) : bool :=
  match ts_compare a b with
  | Gt => false
  | _ => true
  end.

Definition ts_lt (a b : Timestamp) : Prop := ts_compare a b = Lt.

(** [Series.dt.quarter]: pandas computes [(month - 1) // 3 + 1]. *)
Definition dt_quarter (t : Timestamp) : Z := ((ts_month t - 1) / 3 + 1)%Z.

(* ================================================================== *)
(** ** Tables *)
(* ================================================================== *)

(** The rows of the three extracts and of the time dimension.  [N] is the
    type of the numeric cells and [S], [D], [Y] the types of the text, date
    and calendar cells: the same columns are read as raw text, then parsed,
    then freed of nulls, and each stage has its own cell types. *)
Record Client (N S : Type) : Type := mkClient {
  client_id : N;
  nom : S;
  ville : S;
  pays : S;
  segment : S
}.

Record Produit (N S : Type) : Type := mkProduit {
  produit_id : N;
  nom_produit : S;
  categorie : S;
  prix : N
}.

Record Vente (N D : Type) : Type := mkVente {
  vente_id : N;
  v_client_id : N;
  v_produit_id : N;
  v_date : D;
  quantite : N;
  montant : N
}.

Record Temps (D Y : Type) : Type := mkTemps {
  t_date : D;
  annee : Y;
  mois : Y;
  jour : Y;
  trimestre : Y
}.

Arguments mkClient {N S}.
Arguments client_id {N S}.
Arguments nom {N S}.
Arguments ville {N S}.
Arguments pays {N S}.
Arguments segment {N S}.
Arguments mkProduit {N S}.
Arguments produit_id {N S}.
Arguments nom_produit {N S}.
Arguments categorie {N S}.
Arguments prix {N S}.
Arguments mkVente {N D}.
Arguments vente_id {N D}.
Arguments v_client_id {N D}.
Arguments v_produit_id {N D}.
Arguments v_date {N D}.
Arguments quantite {N D}.
Arguments montant {N D}.
Arguments mkTemps {D Y}.
Arguments t_date {D Y}.
Arguments annee {D Y}.
Arguments mois {D Y}.
Arguments jour {D Y}.
Arguments trimestre {D Y}.

(** A raw cell is the text of a field, or [None] where [read_csv] found an
    NA marker. *)
Definition RawCell : Type := option string.

Definition RawClient : Type := Client RawCell RawCell.
Definition RawProduit : Type := Produit RawCell RawCell.
Definition RawVente : Type := Vente RawCell RawCell.

(** Rows of the warehouse tables: no cell is null. *)
Definition DimClient : Type := Client Qc string.
Definition DimProduit : Type := Produit Qc string.
Definition DimTemps : Type := Temps Timestamp Z.
Definition FactVente : Type := Vente Qc Timestamp.

Section RowEquality.
Context {N S D Y : Type}.
Variable N_eq_dec : forall x y : N, {x = y} + {x <> y}.
Variable S_eq_dec : forall x y : S, {x = y} + {x <> y}.
Variable D_eq_dec : forall x y : D, {x = y} + {x <> y}.
Variable Y_eq_dec : forall x y : Y, {x = y} + {x <> y}.

Definition Client_eq_dec (a b : Client N S) : {a = b} + {a <> b}.
Proof. decide equality. Defined.

Definition Produit_eq_dec (a b : Produit N S) : {a = b} + {a <> b}.
Proof. decide equality. Defined.

Definition Vente_eq_dec (a b : Vente N D) : {a = b} + {a <> b}.
Proof. decide equality. Defined.

Definition Temps_eq_dec (a b : Temps D Y) : {a = b} + {a <> b}.
Proof. decide equality. Defined.

Definition option_eq_dec (a b : option N) : {a = b} + {a <> b}.
Proof. decide equality. Defined.

End RowEquality.

Definition DimClient_eq_dec : forall a b : DimClient, {a = b} + {a <> b} :=
  Client_eq_dec Qc_eq_dec string_dec.
Definition DimProduit_eq_dec : forall a b : DimProduit, {a = b} + {a <> b} :=
  Produit_eq_dec Qc_eq_dec string_dec.
Definition FactVente_eq_dec : forall a b : FactVente, {a = b} + {a <> b} :=
  Vente_eq_dec Qc_eq_dec Timestamp_eq_dec.

(* ================================================================== *)
(** ** Files and exceptions *)
(* ================================================================== *)

(** The seven files the two programs touch; [None] is an absent file. *)
Record FileSystem : Type := mkFileSystem {
  Clients_csv : option (list RawClient);
  Produits_csv : option (list RawProduit);
  Ventes_csv : option (list RawVente);
  Dim_Clients_csv : option (list DimClient);
  Dim_Produits_csv : option (list DimProduit);
  Dim_Temps_csv : option (list DimTemps);
  Fact_Ventes_csv : option (list FactVente)
}.

(** The exceptions of the [try] block of [run_etl].  The message of a
    [ValueError] is not modelled. *)
Inductive Exception : Type :=
  | FileNotFoundError (path : string)
  | ValueError.

Definition Try (A : Type) : Type := (Exception + A)%type.

Definition ret {A : Type} (a : A) : Try A := inr a.

Definition raise {A : Type} (e : Exception) : Try A := inl e.

Definition bind {A B : Type} (m : Try A) (k : A -> Try B) : Try B :=
  match m with
  | inl e => inl e
  | inr a => k a
  end.

Notation "x <- m ;; k" := (bind m (fun x => k))
  (at level 61, m at next level, right associativity).

Fixpoint mapM {A B : Type} (f : A -> Try B) (l : list A) : Try (list B) :=
  match l with
  | [] => ret []
  | a :: l' =>
      b <- f a ;;
      bs <- mapM f l' ;;
      ret (b :: bs)
  end.

(** [pd.read_csv(path)] *)
Definition read_csv {T : Type} (path : string) (file : option T) : Try T :=
  match file with
  | Some t => ret t
  | None => raise (FileNotFoundError path)
  end.

(** What [run_etl] tells its caller: the error it printed, or the final
    success message. *)
Inductive EtlOutcome : Type :=
  | EtlFailed (e : Exception)
  | EtlDone.

(* ================================================================== *)
(** ** Concrete parsers, to run the model on examples *)
(* ================================================================== *)

(** These accept a small part of what pandas accepts: plain decimal
    numbers and ISO dates, on which their answers are those of pandas.
    Text that is neither a number nor an NA marker is rejected. *)

Definition digit_of (c : ascii) : option Z :=
  let n := nat_of_ascii c in
  if ((48 <=? n) && (n <=? 57))%nat then Some (Z.of_nat (n - 48)) else None.

Fixpoint digits_value (acc : Z) (s : string) : option Z :=
  match s with
  | EmptyString => Some acc
  | String c s' =>
      match digit_of c with
      | Some d => digits_value (10 * acc + d)%Z s'
      | None => None
      end
  end.

Definition parse_digits (s : string) : option Z :=
  match s with
  | EmptyString => None
  | _ => digits_value 0%Z s
  end.

Fixpoint split_at_dot (s : string) : string * option string :=
  match s with
  | EmptyString => (EmptyString, None)
  | String c s' =>
      if Ascii.eqb c "."%char then (EmptyString, Some s')
      else let (a, b) := split_at_dot s' in (String c a, b)
  end.

Definition parse_unsigned (s : string) : option Q :=
  match split_at_dot s with
  | (i, None) => option_map inject_Z (parse_digits i)
  | (i, Some f) =>
      match parse_digits i, parse_digits f with
      | Some n, Some m =>
          Some (inject_Z n + (m # Z.to_pos (10 ^ Z.of_nat (String.length f))))%Q
      | _, _ => None
      end
  end.

(** [None]: the text is no number ([ValueError]); [Some None]: NaN. *)
Definition simple_to_numeric (s : string) : option (option Qc) :=
  if String.eqb s "" || String.eqb s "nan" then Some None
  else
    match s with
    | String "-"%char s' =>
        option_map (fun q => Some (Q2Qc (- q)%Q)) (parse_unsigned s')
    | _ => option_map (fun q => Some (Q2Qc q)) (parse_unsigned s)
    end.

Definition is_leap (y : Z) : bool :=
  ((y mod 4 =? 0) && (negb (y mod 100 =? 0) || (y mod 400 =? 0)))%Z.

Definition days_in_month (y m : Z) : Z :=
  if (m =? 2)%Z then (if is_leap y then 29 else 28)%Z
  else if ((m =? 4) || (m =? 6) || (m =? 9) || (m =? 11))%Z then 30%Z
  else 31%Z.

(** Dates written [YYYY-MM-DD]; anything else is NaT. *)
Definition simple_to_datetime (s : string) : option Timestamp :=
  if (String.length s =? 10)%nat
     && String.eqb (substring 4 1 s) "-" && String.eqb (substring 7 1 s) "-"
  then
    match parse_digits (substring 0 4 s), parse_digits (substring 5 2 s),
          parse_digits (substring 8 2 s) with
    | Some y, Some m, Some d =>
        if ((1 <=? m) && (m <=? 12) && (1 <=? d) && (d <=? days_in_month y m))%Z
        then Some (mkTimestamp y m d 0)
        else None
    | _, _, _ => None
    end
  else None.

(** The default NA markers of [pd.read_csv]. *)
Definition na_values : list string :=
  [""; "#N/A"; "#N/A N/A"; "#NA"; "-1.#IND"; "-1.#QNAN"; "-NaN"; "-nan";
   "1.#IND"; "1.#QNAN"; "<NA>"; "N/A"; "NA"; "NULL"; "NaN"; "None"; "n/a";
   "nan"; "null"].

Definition simple_is_na (s : string) : bool :=
  if in_dec string_dec s na_values then true else false.

(* ================================================================== *)
(** ** etl_script.py: run_etl *)
(* ================================================================== *)

(** [country_mapping] *)
Definition country_mapping : list (string * string) :=
  [("États-Unis", "USA"); ("United States", "USA"); ("US", "USA")].

(** [Series.replace(mapping)] on one text cell: the value of the first key
    equal to the whole cell, or the cell itself. *)
Fixpoint replace (mapping : list (string * string)) (s : string) : string :=
  match mapping with
  | [] => s
  | (k, v) :: mapping' => if String.eqb s k then v else replace mapping' s
  end.

(** [clean_quotes(df)], one row at a time and one definition per extract;
    every column of an extract is a text column. *)
Definition clean_quotes_client (r : RawClient) : Client string string :=
  mkClient (clean_cell (client_id r)) (clean_cell (nom r))
    (clean_cell (ville r)) (clean_cell (pays r)) (clean_cell (segment r)).

Definition clean_quotes_produit (r : RawProduit) : Produit string string :=
  mkProduit (clean_cell (produit_id r)) (clean_cell (nom_produit r))
    (clean_cell (categorie r)) (clean_cell (prix r)).

Definition clean_quotes_vente (r : RawVente) : Vente string string :=
  mkVente (clean_cell (vente_id r)) (clean_cell (v_client_id r))
    (clean_cell (v_produit_id r)) (clean_cell (v_date r))
    (clean_cell (quantite r)) (clean_cell (montant r)).

Definition clean_quotes_clients (df : list RawClient)
    : list (Client string string) :=
  map clean_quotes_client df.

Definition clean_quotes_produits (df : list RawProduit)
    : list (Produit string string) :=
  map clean_quotes_produit df.

Definition clean_quotes_ventes (df : list RawVente)
    : list (Vente string string) :=
  map clean_quotes_vente df.

(** [DataFrame.dropna()]: the rows without a null cell.  Text cells are
    never null after [clean_quotes]. *)
Definition dropna_clients (df : list (Client (option Qc) string))
    : list DimClient :=
  flat_map
    (fun r =>
       match client_id r with
       | Some i => [mkClient i (nom r) (ville r) (pays r) (segment r)]
       | None => []
       end)
    df.

Definition dropna_produits (df : list (Produit (option Qc) string))
    : list DimProduit :=
  flat_map
    (fun r =>
       match produit_id r, prix r with
       | Some i, Some p => [mkProduit i (nom_produit r) (categorie r) p]
       | _, _ => []
       end)
    df.

Definition dropna_ventes (df : list (Vente (option Qc) (option Timestamp)))
    : list FactVente :=
  flat_map
    (fun r =>
       match vente_id r, v_client_id r, v_produit_id r, v_date r,
             quantite r, montant r with
       | Some i, Some c, Some p, Some d, Some q, Some m =>
           [mkVente i c p d q m]
       | _, _, _, _, _, _ => []
       end)
    df.

(** [dropna(subset=['date'])] *)
Definition dropna_date {N D : Type} (df : list (Vente N (option D)))
    : list (Vente N (option D)) :=
  filter (fun r => match v_date r with Some _ => true | None => false end) df.

(** The three frames as they leave the [try] block. *)
Record Extracts : Type := mkExtracts {
  clients_df : list (Client (option Qc) string);
  produits_df : list (Produit (option Qc) string);
  ventes_df : list (Vente (option Qc) (option Timestamp))
}.

(** The four tables [run_etl] exports. *)
Record Warehouse : Type := mkWarehouse {
  dim_clients : list DimClient;
  dim_produits : list DimProduit;
  dim_temps : list DimTemps;
  fact_ventes : list FactVente
}.

(** One row of Dim_Temps: the [dt] accessors of its date. *)
Definition temps_of_date (d : Timestamp) : DimTemps :=
  mkTemps d (ts_year d) (ts_month d) (ts_day d) (dt_quarter d).

(** Line 70: [clients_df['pays'].replace(country_mapping)], on one row. *)
Definition replace_pays (r : DimClient) : DimClient :=
  mkClient (client_id r) (nom r) (ville r)
    (replace country_mapping (pays r)) (segment r).

(** Lines 55-102: cleaning and the star schema. *)
Definition build_warehouse (e : Extracts) : Warehouse :=
  let clients := dropna_clients (clients_df e) in
  let produits := dropna_produits (produits_df e) in
  let ventes := dropna_ventes (ventes_df e) in
  let clients := map replace_pays clients in
  let clients := drop_duplicates DimClient_eq_dec clients in
  let produits := drop_duplicates DimProduit_eq_dec produits in
  let ventes := drop_duplicates FactVente_eq_dec ventes in
  let dates_uniques := unique Timestamp_eq_dec (map v_date ventes) in
  let temps := map temps_of_date dates_uniques in
  let temps := sort_by (fun a b => ts_leb (t_date a) (t_date b)) temps in
  mkWarehouse clients produits temps ventes.

(** Lines 106-109: the four [to_csv] calls. *)
Definition to_csv (w : Warehouse) (fs : FileSystem) : FileSystem :=
  mkFileSystem (Clients_csv fs) (Produits_csv fs) (Ventes_csv fs)
    (Some (dim_clients w)) (Some (dim_produits w)) (Some (dim_temps w))
    (Some (fact_ventes w)).

Section Etl.

(** [pd.to_numeric] on one text cell: [None] when pandas raises
    [ValueError], [Some None] when the cell reads as NaN. *)
Variable to_numeric_cell : string -> option (option Qc).

(** [pd.to_datetime(..., errors='coerce')] on one text cell: [None] is NaT. *)
Variable to_datetime_cell : string -> option Timestamp.

Definition to_numeric (c : string) : Try (option Qc) :=
  match to_numeric_cell c with
  | Some v => ret v
  | None => raise ValueError
  end.

(** Lines 35-44.  The source converts column after column; as a
    [ValueError] carries no message here, converting row after row raises
    in the same cases and returns the same frame. *)
Definition numeric_client (r : Client string string)
    : Try (Client (option Qc) string) :=
  i <- to_numeric (client_id r) ;;
  ret (mkClient i (nom r) (ville r) (pays r) (segment r)).

Definition numeric_produit (r : Produit string string)
    : Try (Produit (option Qc) string) :=
  i <- to_numeric (produit_id r) ;;
  p <- to_numeric (prix r) ;;
  ret (mkProduit i (nom_produit r) (categorie r) p).

Definition numeric_vente (r : Vente string string)
    : Try (Vente (option Qc) string) :=
  i <- to_numeric (vente_id r) ;;
  c <- to_numeric (v_client_id r) ;;
  p <- to_numeric (v_produit_id r) ;;
  q <- to_numeric (quantite r) ;;
  m <- to_numeric (montant r) ;;
  ret (mkVente i c p (v_date r) q m).

Definition numeric_clients (df : list (Client string string))
    : Try (list (Client (option Qc) string)) :=
  mapM numeric_client df.

Definition numeric_produits (df : list (Produit string string))
    : Try (list (Produit (option Qc) string)) :=
  mapM numeric_produit df.

Definition numeric_ventes (df : list (Vente string string))
    : Try (list (Vente (option Qc) string)) :=
  mapM numeric_vente df.

(** Line 46 *)
Definition to_datetime (df : list (Vente (option Qc) string))
    : list (Vente (option Qc) (option Timestamp)) :=
  map (fun r =>
         mkVente (vente_id r) (v_client_id r) (v_produit_id r)
           (to_datetime_cell (v_date r)) (quantite r) (montant r))
      df.

(** Lines 12-47: the body of the [try] block. *)
Definition extract (fs : FileSystem) : Try Extracts :=
  clients <- read_csv "Clients.csv" (Clients_csv fs) ;;
  produits <- read_csv "Produits.csv" (Produits_csv fs) ;;
  ventes <- read_csv "Ventes.csv" (Ventes_csv fs) ;;
  let clients := clean_quotes_clients clients in
  let produits := clean_quotes_produits produits in
  let ventes := clean_quotes_ventes ventes in
  clients <- numeric_clients clients ;;
  produits <- numeric_produits produits ;;
  ventes <- numeric_ventes ventes ;;
  let ventes := to_datetime ventes in
  let ventes := dropna_date ventes in
  ret (mkExtracts clients produits ventes).

(** [run_etl()]: the [except] branch prints the error and returns before
    any file is written. *)
Definition run_etl (fs : FileSystem) : EtlOutcome * FileSystem :=
  match extract fs with
  | inl e => (EtlFailed e, fs)
  | inr x => (EtlDone, to_csv (build_warehouse x) fs)
  end.

(** The tables a run writes, if it writes any. *)
Definition etl_tables (fs : FileSystem) : option Warehouse :=
  match extract fs with
  | inl _ => None
  | inr x => Some (build_warehouse x)
  end.

End Etl.

(* ================================================================== *)
(** ** dashboard.py: load_and_merge_data *)
(* ================================================================== *)

(** Rows of the frames [pd.read_csv] returns: any cell may be null. *)
Definition DfClient : Type := Client (option Qc) (option string).
Definition DfProduit : Type := Produit (option Qc) (option string).
Definition DfTemps : Type := Temps (option Timestamp) (option Z).
Definition DfVente : Type := Vente (option Qc) (option Timestamp).

(** A row of the cube: the columns of the fact row, then those of the
    client, product and time rows it was merged with; a dimension part
    that is [None] stands for its columns all being null. *)
Record CubeRow : Type := mkCubeRow {
  vente : DfVente;
  client : option DfClient;
  produit : option DfProduit;
  temps : option DfTemps
}.

(** Equality of two join keys; as in pandas, a null key matches a null key. *)
Definition key_eqb {A : Type} (eq_dec : forall x y : A, {x = y} + {x <> y})
    (a b : option A) : bool :=
  if option_eq_dec eq_dec a b then true else false.

Definition on_client_id (f : DfVente) (c : DfClient) : bool :=
  key_eqb Qc_eq_dec (v_client_id f) (client_id c).

Definition on_produit_id (f : DfVente) (p : DfProduit) : bool :=
  key_eqb Qc_eq_dec (v_produit_id f) (produit_id p).

Definition on_date (f : DfVente) (t : DfTemps) : bool :=
  key_eqb Timestamp_eq_dec (v_date f) (t_date t).

(** Lines 30-38: the three left merges. *)
Definition df_cube (ventes : list DfVente) (clients : list DfClient)
    (produits : list DfProduit) (temps : list DfTemps) : list CubeRow :=
  let df := merge_left on_client_id ventes clients in
  let df := merge_left (fun r p => on_produit_id (fst r) p) df produits in
  let df := merge_left (fun r t => on_date (fst (fst r)) t) df temps in
  map (fun r => mkCubeRow (fst (fst (fst r))) (snd (fst (fst r)))
                  (snd (fst r)) (snd r))
      df.

Section Dashboard.

(** The NA markers of [pd.read_csv]: a text cell that is one of them is
    read as NaN. *)
Variable is_na : string -> bool.

Definition read_text (s : string) : option string :=
  if is_na s then None else Some s.

(** The warehouse tables as [pd.read_csv] returns them (lines 11-14) and
    after the conversions of lines 20-28, which leave numbers and dates
    written by [to_csv] as they are. *)
Definition read_dim_clients (t : list DimClient) : list DfClient :=
  map (fun r =>
         mkClient (Some (client_id r)) (read_text (nom r))
           (read_text (ville r)) (read_text (pays r))
           (read_text (segment r)))
      t.

Definition read_dim_produits (t : list DimProduit) : list DfProduit :=
  map (fun r =>
         mkProduit (Some (produit_id r)) (read_text (nom_produit r))
           (read_text (categorie r)) (Some (prix r)))
      t.

Definition read_dim_temps (t : list DimTemps) : list DfTemps :=
  map (fun r =>
         mkTemps (Some (t_date r)) (Some (annee r)) (Some (mois r))
           (Some (jour r)) (Some (trimestre r)))
      t.

Definition read_fact_ventes (t : list FactVente) : list DfVente :=
  map (fun r =>
         mkVente (Some (vente_id r)) (Some (v_client_id r))
           (Some (v_produit_id r)) (Some (v_date r)) (Some (quantite r))
           (Some (montant r)))
      t.

(** Lines 11-14 *)
Definition read_warehouse (fs : FileSystem) : Try Warehouse :=
  c <- read_csv "Dim_Clients.csv" (Dim_Clients_csv fs) ;;
  p <- read_csv "Dim_Produits.csv" (Dim_Produits_csv fs) ;;
  t <- read_csv "Dim_Temps.csv" (Dim_Temps_csv fs) ;;
  f <- read_csv "Fact_Ventes.csv" (Fact_Ventes_csv fs) ;;
  ret (mkWarehouse c p t f).

(** [load_and_merge_data()]: [None] after [st.error] when a file is
    missing, the cube otherwise. *)
Definition load_and_merge_data (fs : FileSystem) : option (list CubeRow) :=
  match read_warehouse fs with
  | inl _ => None
  | inr w =>
      Some (df_cube (read_fact_ventes (fact_ventes w))
              (read_dim_clients (dim_clients w))
              (read_dim_produits (dim_produits w))
              (read_dim_temps (dim_temps w)))
  end.

End Dashboard.

(* ================================================================== *)
(** ** dashboard.py: the filters and aggregates of main *)
(* ================================================================== *)

(** The columns of the cube that main reads. *)
Definition col_annee (r : CubeRow) : option Z :=
  match temps r with Some t => annee t | None => None end.

Definition col_mois (r : CubeRow) : option Z :=
  match temps r with Some t => mois t | None => None end.

Definition col_jour (r : CubeRow) : option Z :=
  match temps r with Some t => jour t | None => None end.

Definition col_trimestre (r : CubeRow) : option Z :=
  match temps r with Some t => trimestre t | None => None end.

Definition col_pays (r : CubeRow) : option string :=
  match client r with Some c => pays c | None => None end.

Definition col_nom (r : CubeRow) : option string :=
  match client r with Some c => nom c | None => None end.

Definition col_segment (r : CubeRow) : option string :=
  match client r with Some c => segment c | None => None end.

Definition col_categorie (r : CubeRow) : option string :=
  match produit r with Some p => categorie p | None => None end.

Definition col_nom_produit (r : CubeRow) : option string :=
  match produit r with Some p => nom_produit p | None => None end.

Definition col_prix (r : CubeRow) : option Qc :=
  match produit r with Some p => prix p | None => None end.

Definition col_montant (r : CubeRow) : option Qc := montant (vente r).

Definition col_quantite (r : CubeRow) : option Qc := quantite (vente r).

(** Lines 53, 57, 62: [sorted(df[col].dropna().unique())] *)
Definition annees_dispo (df : list CubeRow) : list Z :=
  sort_by Z.leb (unique Z.eq_dec (dropna (map col_annee df))).

Definition pays_dispo (df : list CubeRow) : list string :=
  sort_by String.leb (unique string_dec (dropna (map col_pays df))).

Definition categories_dispo (df : list CubeRow) : list string :=
  sort_by String.leb (unique string_dec (dropna (map col_categorie df))).

(** The three masks of lines 67-69. *)
Definition mask_annee (selected_year : list Z) (r : CubeRow) : bool :=
  isin Z.eq_dec (col_annee r) selected_year.

Definition mask_pays (selected_country : list string) (r : CubeRow) : bool :=
  isin string_dec (col_pays r) selected_country.

Definition mask_categorie (selected_category : list string) (r : CubeRow)
    : bool :=
  isin string_dec (col_categorie r) selected_category.

(** Lines 66-70 *)
Definition filtered_df (df : list CubeRow) (selected_year : list Z)
    (selected_country selected_category : list string) : list CubeRow :=
  filter
    (fun r =>
       mask_annee selected_year r && mask_pays selected_country r
       && mask_categorie selected_category r)
    df.

(** [Series.sum()]: the sum of the non-null cells, 0 when there is none. *)
Definition sum_col (col : list (option Qc)) : Qc :=
  fold_right Qcplus (Q2Qc 0) (dropna col).

(** [Series.mean()]: the mean of the non-null cells; NaN ([None]) when
    there is none. *)
Definition mean_col (col : list (option Qc)) : option Qc :=
  match dropna col with
  | [] => None
  | vs =>
      Some (fold_right Qcplus (Q2Qc 0) vs
            / Q2Qc (inject_Z (Z.of_nat (List.length vs))))%Qc
  end.

(** Lines 73-75 *)
Definition total_ventes (f : list CubeRow) : Qc := sum_col (map col_montant f).

Definition total_quantite (f : list CubeRow) : Qc :=
  sum_col (map col_quantite f).

Definition prix_moyen (f : list CubeRow) : option Qc :=
  mean_col (map col_prix f).

Definition Qc_leb (a b : Qc) : bool := Qle_bool a b.

Section GroupBy.
Context {K : Type}.
Variable K_eq_dec : forall x y : K, {x = y} + {x <> y}.
Variable K_leb : K -> K -> bool.

(** The rows of one group. *)
Definition group_rows (key : CubeRow -> option K) (k : K)
    (df : list CubeRow) : list CubeRow :=
  filter (fun r => isin K_eq_dec (key r) [k]) df.

(** [df.groupby(key)[val].sum().reset_index()]: one row per non-null key,
    in ascending key order (groupby sorts its keys and drops null ones),
    with the sum of [val] over the rows of the group. *)
Definition groupby_sum (key : CubeRow -> option K)
    (val : CubeRow -> option Qc) (df : list CubeRow) : list (K * Qc) :=
  map (fun k => (k, sum_col (map val (group_rows key k df))))
      (sort_by K_leb (unique K_eq_dec (dropna (map key df)))).

End GroupBy.

(** [sort_values(val, ascending=False)] on the output of a group-by. *)
Definition sort_values_desc {K : Type} (g : list (K * Qc)) : list (K * Qc) :=
  sort_by (fun a b => Qc_leb (snd b) (snd a)) g.

(** Lines 91, 97, 103, 113, 120 *)
Definition ventes_par_pays (f : list CubeRow) : list (string * Qc) :=
  groupby_sum string_dec String.leb col_pays col_montant f.

Definition ventes_par_mois (f : list CubeRow) : list (Z * Qc) :=
  groupby_sum Z.eq_dec Z.leb col_mois col_montant f.

Definition top_produits (f : list CubeRow) : list (string * Qc) :=
  firstn 10
    (sort_values_desc
       (groupby_sum string_dec String.leb col_nom_produit col_quantite f)).

Definition ventes_par_segment (f : list CubeRow) : list (string * Qc) :=
  groupby_sum string_dec String.leb col_segment col_montant f.

Definition top_clients (f : list CubeRow) : list (string * Qc) :=
  firstn 5
    (sort_values_desc
       (groupby_sum string_dec String.leb col_nom col_montant f)).

(* ================================================================== *)
(** ** Notions used to state the properties *)
(* ================================================================== *)





(** The file system with another sales extract. *)
Definition with_ventes (fs : FileSystem) (v : list RawVente) : FileSystem :=
  mkFileSystem (Clients_csv fs) (Produits_csv fs) (Some v)
    (Dim_Clients_csv fs) (Dim_Produits_csv fs) (Dim_Temps_csv fs)
    (Fact_Ventes_csv fs).

(** The rank of the first row of the frame that carries product name [n]. *)
Fixpoint first_index (n : string) (f : list CubeRow) : nat :=
  match f with
  | [] => 0
  | r :: f' =>
      if isin string_dec (col_nom_produit r) [n] then 0
      else S (first_index n f')
  end.

(** Ties broken by first-encountered order: of two output rows with the
    same quantity, the one whose product is met first in the frame comes
    first. *)
Fixpoint ties_first_encountered (f : list CubeRow) (out : list (string * Qc))
    : bool :=
  match out with
  | [] => true
  | a :: out' =>
      forallb
        (fun b =>
           negb (Qc_eq_bool (snd a) (snd b))
           || (first_index (fst a) f <=? first_index (fst b) f)%nat)
        out'
      && ties_first_encountered f out'
  end.

(** The order in which [top_produits] leaves its rows: by decreasing
    quantity, and by increasing product name among equal quantities. *)
Definition top_order (a b : string * Qc) : Prop :=
  (snd b < snd a)%Qc
  \/ (snd a = snd b /\ String.ltb (fst a) (fst b) = true).

(** The ceiling of [m / 3]. *)
Definition ceil_div3 (m : Z) : Z := Qceiling (inject_Z m / 3)%Q.

(** The cube row of a fact row when each of its keys is looked up in its
    dimension: the first matching row, or a null part. *)
Definition cube_row_of (clients : list DfClient) (produits : list DfProduit)
    (temps : list DfTemps) (f : DfVente) : CubeRow :=
  mkCubeRow f (find (on_client_id f) clients)
    (find (on_produit_id f) produits) (find (on_date f) temps).

(** [Series.notna()] on one cell. *)
Definition notna {A : Type} (c : option A) : bool :=
  match c with
  | Some _ => true
  | None => false
  end.



(** [path] is one of the three extracts and the file is absent. *)
Definition missing_input (fs : FileSystem) (path : string) : Prop :=
  (path = "Clients.csv" /\ Clients_csv fs = None)
  \/ (path = "Produits.csv" /\ Produits_csv fs = None)
  \/ (path = "Ventes.csv" /\ Ventes_csv fs = None).



(** The keys of [country_mapping]. *)
Definition country_aliases : list string := map fst country_mapping.

(** A double quote occurs in the text. *)
Definition has_quote (s : string) : bool :=
  existsb (Ascii.eqb dquote) (list_ascii_of_string s).

(** The text starts or ends with a whitespace character. *)
Definition outer_space (s : string) : bool :=
  match list_ascii_of_string s with
  | [] => false
  | c :: l => is_space c || is_space (last l c)
  end.

(** The first and the last byte of the text are one-byte characters, so
    that no whitespace character of several bytes stands at its ends. *)
Definition outer_one_byte (s : string) : bool :=
  match list_ascii_of_string s with
  | [] => true
  | c :: l =>
      ((nat_of_ascii c <? 128) && (nat_of_ascii (last l c) <? 128))%nat
  end.

(** The characters [strip] returns, read on lists. *)
Definition strip_chars (l : list ascii) : list ascii :=
  rev (lstrip (rev (lstrip l))).

(** What lines 26-61 make of one row of an extract, the parsers being
    given: the row of the cleaned frame, or nothing when a number reads as
    NaN or, for a sale, when the date is unreadable.  A number that cannot
    be read at all stops the run; here such a row gives nothing. *)
Definition cleaned_client (to_numeric_cell : string -> option (option Qc))
    (r : RawClient) : option DimClient :=
  match to_numeric_cell (clean_cell (client_id r)) with
  | Some (Some i) =>
      Some (mkClient i (clean_cell (nom r)) (clean_cell (ville r))
              (clean_cell (pays r)) (clean_cell (segment r)))
  | _ => None
  end.

Definition cleaned_produit (to_numeric_cell : string -> option (option Qc))
    (r : RawProduit) : option DimProduit :=
  match to_numeric_cell (clean_cell (produit_id r)),
        to_numeric_cell (clean_cell (prix r)) with
  | Some (Some i), Some (Some p) =>
      Some (mkProduit i (clean_cell (nom_produit r))
              (clean_cell (categorie r)) p)
  | _, _ => None
  end.

Definition cleaned_vente (to_numeric_cell : string -> option (option Qc))
    (to_datetime_cell : string -> option Timestamp) (r : RawVente)
    : option FactVente :=
  match to_numeric_cell (clean_cell (vente_id r)),
        to_numeric_cell (clean_cell (v_client_id r)),
        to_numeric_cell (clean_cell (v_produit_id r)),
        to_datetime_cell (clean_cell (v_date r)),
        to_numeric_cell (clean_cell (quantite r)),
        to_numeric_cell (clean_cell (montant r)) with
  | Some (Some i), Some (Some c), Some (Some p), Some d, Some (Some q),
    Some (Some m) => Some (mkVente i c p d q m)
  | _, _, _, _, _, _ => None
  end.

(** The total of column [val] over the rows of the frame whose key is [k]. *)
Definition group_total {K : Type}
    (K_eq_dec : forall x y : K, {x = y} + {x <> y})
    (key : CubeRow -> option K) (val : CubeRow -> option Qc) (k : K)
    (f : list CubeRow) : Qc :=
  sum_col (map val (group_rows K_eq_dec key k f)).

(** The sum of the second column of an aggregate. *)
Definition sum_values {K : Type} (g : list (K * Qc)) : Qc :=
  fold_right Qcplus (Q2Qc 0) (map snd g).

(** What a group-by on [key] summing [val] returns: one row per key
    present in the frame, with the total of its group, the keys in
    strictly increasing order for [lt]; nothing when no row has a key. *)
Definition is_groupby_sum {K : Type}
    (K_eq_dec : forall x y : K, {x = y} + {x <> y}) (lt : K -> K -> Prop)
    (key : CubeRow -> option K) (val : CubeRow -> option Qc)
    (f : list CubeRow) (g : list (K * Qc)) : Prop :=
  StronglySorted lt (map fst g)
  /\ (forall k q, In (k, q) g
        <-> (exists r, In r f /\ key r = Some k)
            /\ q = group_total K_eq_dec key val k f)
  /\ (g = [] <-> forall r, In r f -> key r = None)
  /\ sum_values g = sum_col (map val (filter (fun r => notna (key r)) f)).

(** A text without double quote and without whitespace at its ends. *)
Definition clean_text (s : string) : Prop :=
  has_quote s = false /\ outer_space s = false.

(* ================================================================== *)
(** ** Sample extracts *)
(* ================================================================== *)

(** A field as the extracts hold it, between double quotes. *)
Definition quoted (s : string) : RawCell :=
  Some (String dquote (s ++ String dquote EmptyString)%string).

Definition raw_client (i n v p s : string) : RawClient :=
  mkClient (quoted i) (quoted n) (quoted v) (quoted p) (quoted s).

Definition raw_produit (i n c p : string) : RawProduit :=
  mkProduit (quoted i) (quoted n) (quoted c) (quoted p).

Definition raw_vente (i c p d q m : string) : RawVente :=
  mkVente (quoted i) (quoted c) (quoted p) (quoted d) (quoted q) (quoted m).

Definition ex_clients : list RawClient :=
  [raw_client "1" "Alice" "Boston" "USA" "Gold";
   raw_client "2" "Bob" "Austin" "États-Unis" "Silver";
   raw_client "3" "Chloe" "Paris" "France" "Gold"].

Definition ex_produits : list RawProduit :=
  [raw_produit "10" "Stylo" "Bureau" "2.50";
   raw_produit "11" "Cahier" "Bureau" "4"].

Definition ex_ventes_ok : list RawVente :=
  [raw_vente "100" "1" "10" "2023-03-01" "5" "12.50";
   raw_vente "101" "2" "11" "2023-01-15" "5" "20";
   raw_vente "102" "3" "10" "2024-02-29" "1" "2.50"].

Definition ex_vente_bad_date : RawVente :=
  raw_vente "103" "9" "11" "not a date" "1" "4".

Definition ex_vente_unknown_client : RawVente :=
  raw_vente "104" "9" "11" "2023-01-15" "1" "4".


(** Sale 103 has an unreadable date; sales 103 and 104 name a client that
    is not in the client extract. *)
Definition ex_ventes : list RawVente :=
  ex_ventes_ok ++ ex_vente_bad_date :: [ex_vente_unknown_client].

Definition ex_fs : FileSystem :=
  mkFileSystem (Some ex_clients) (Some ex_produits) (Some ex_ventes)
    None None None None.


(** Two client rows that share an identifier and differ in their city. *)
Definition ex_fs_two_cities : FileSystem :=
  mkFileSystem
    (Some [raw_client "1" "Alice" "Boston" "USA" "Gold";
           raw_client "1" "Alice" "Austin" "USA" "Gold"])
    (Some ex_produits)
    (Some [raw_vente "100" "1" "10" "2023-03-01" "5" "12.50"])
    None None None None.

(** No product extract, and a warehouse left by an earlier run. *)
Definition ex_fs_no_produits : FileSystem :=
  mkFileSystem (Some ex_clients) None (Some ex_ventes)
    (Some []) None (Some []) (Some []).

(** The model run with the concrete parsers. *)
Definition ex_run (fs : FileSystem) : EtlOutcome * FileSystem :=
  run_etl simple_to_numeric simple_to_datetime fs.

Definition ex_cube (fs : FileSystem) : list CubeRow :=
  match load_and_merge_data simple_is_na (snd (ex_run fs)) with
  | Some df => df
  | None => []
  end.

(** The frames the sample run leaves its [try] block with, the tables it
    writes, and these tables as the dashboard reads them. *)
Definition ex_extracts (fs : FileSystem) : Extracts :=
  match extract simple_to_numeric simple_to_datetime fs with
  | inr e => e
  | inl _ => mkExtracts [] [] []
  end.

Definition ex_warehouse (fs : FileSystem) : Warehouse :=
  match etl_tables simple_to_numeric simple_to_datetime fs with
  | Some w => w
  | None => mkWarehouse [] [] [] []
  end.

Definition ex_df_ventes (fs : FileSystem) : list DfVente :=
  read_fact_ventes (fact_ventes (ex_warehouse fs)).

Definition ex_df_clients (fs : FileSystem) : list DfClient :=
  read_dim_clients simple_is_na (dim_clients (ex_warehouse fs)).

Definition ex_df_produits (fs : FileSystem) : list DfProduit :=
  read_dim_produits simple_is_na (dim_produits (ex_warehouse fs)).

Definition ex_df_temps (fs : FileSystem) : list DfTemps :=
  read_dim_temps (dim_temps (ex_warehouse fs)).



(** One client recorded twice, under two spellings of its country. *)
Definition ex_fs_two_spellings : FileSystem :=
  mkFileSystem
    (Some [raw_client "2" "Bob" "Austin" "États-Unis" "Silver";
           raw_client "2" "Bob" "Austin" "US" "Silver"])
    (Some ex_produits) (Some ex_ventes) None None None None.

(** A frame with eleven products, product number i sold i times. *)
Definition ex_product_names : list string :=
  ["p00"; "p01"; "p02"; "p03"; "p04"; "p05"; "p06"; "p07"; "p08"; "p09";
   "p10"].

Definition ex_product_row (i : nat) (name : string) : CubeRow :=
  let q := Some (Q2Qc (inject_Z (Z.of_nat i))) in
  mkCubeRow (mkVente q None q None q q) None
    (Some (mkProduit q (Some name) None None)) None.

Definition ex_eleven_products : list CubeRow :=
  map (fun x => ex_product_row (fst x) (snd x))
      (combine (seq 0 11) ex_product_names).

(** The sample extracts with the one sale whose date is unreadable. *)
Definition ex_fs_no_date : FileSystem :=
  with_ventes ex_fs [ex_vente_bad_date].

(** The rows of the sample cube that [main] passes to its aggregates when
    the year 2023, every country and every category are selected. *)
Definition ex_filtered_2023 : list CubeRow :=
  filtered_df (ex_cube ex_fs) [2023%Z] (pays_dispo (ex_cube ex_fs))
    (categories_dispo (ex_cube ex_fs)).

(* ================================================================== *)
(** * Properties *)
(* ================================================================== *)

(** ** Facts on the column operations *)

Section ColumnFacts.
Context {A : Type}.
Variable eq_dec : forall x y : A, {x = y} + {x <> y}.

Lemma unique_from_In (l seen : list A) (x : A) :
  In x (unique_from eq_dec seen l) <-> In x l /\ ~ In x seen.
Proof.
  revert seen. induction l as [|a l IH]; intros seen; simpl.
  - tauto.
  - destruct (in_dec eq_dec a seen) as [Ha|Ha].
    + rewrite IH. split.
      * intros [H1 H2]. tauto.
      * intros [[->|H1] H2]; [contradiction|tauto].
    + simpl. rewrite IH. simpl. split.
      * intros [->|[H1 H2]]; [tauto|]. split; [tauto|]. tauto.
      * intros [[->|H1] H2]; [tauto|].
        destruct (eq_dec a x) as [->|Hne]; [tauto|]. right. split; [tauto|].
        intros [H3|H3]; [contradiction|contradiction].
Qed.

Lemma unique_from_NoDup (l seen : list A) : NoDup (unique_from eq_dec seen l).
Proof.
  revert seen. induction l as [|a l IH]; intros seen; simpl.
  - constructor.
  - destruct (in_dec eq_dec a seen) as [Ha|Ha]; [apply IH|].
    constructor; [|apply IH].
    rewrite unique_from_In. simpl. tauto.
Qed.

Lemma unique_In (l : list A) (x : A) : In x (unique eq_dec l) <-> In x l.
Proof. unfold unique. rewrite unique_from_In. simpl. tauto. Qed.

Lemma unique_NoDup (l : list A) : NoDup (unique eq_dec l).
Proof. apply unique_from_NoDup. Qed.

Lemma unique_from_fixed (l seen : list A) :
  NoDup l -> (forall x, In x l -> ~ In x seen) ->
  unique_from eq_dec seen l = l.
Proof.
  revert seen. induction l as [|a l IH]; intros seen Hnd Hs; simpl; [easy|].
  inversion Hnd as [|? ? Ha Hl]; subst.
  destruct (in_dec eq_dec a seen) as [Hin|_].
  - exfalso. apply (Hs a); simpl; auto.
  - f_equal. apply IH; [assumption|].
    intros x Hx [->|Hx']; [contradiction|]. apply (Hs x); simpl; auto.
Qed.

(** A frame without duplicates is left as it is. *)
Lemma unique_fixed (l : list A) : NoDup l -> unique eq_dec l = l.
Proof. intros H. apply unique_from_fixed; auto. Qed.

Lemma isin_true (c : option A) (values : list A) :
  isin eq_dec c values = true <-> exists v, c = Some v /\ In v values.
Proof.
  unfold isin. destruct c as [v|].
  - destruct (in_dec eq_dec v values) as [H|H]; split.
    + intros _. exists v. auto.
    + reflexivity.
    + discriminate.
    + intros [v' [E Hv]]. inversion E; subst. contradiction.
  - split; [discriminate|]. intros [v [E _]]. discriminate.
Qed.

Lemma isin_nil (c : option A) : isin eq_dec c [] = false.
Proof. destruct c; reflexivity. Qed.

Lemma isin_single (c : option A) (k : A) :
  isin eq_dec c [k] = true <-> c = Some k.
Proof.
  rewrite isin_true. split.
  - intros [v [-> [->|[]]]]. reflexivity.
  - intros ->. exists k. simpl. auto.
Qed.

End ColumnFacts.

Lemma dropna_In {A : Type} (col : list (option A)) (v : A) :
  In v (dropna col) <-> In (Some v) col.
Proof.
  induction col as [|[a|] col IH]; simpl.
  - tauto.
  - rewrite IH. split; intros [H|H]; auto; left; congruence.
  - rewrite IH. split; [auto|]. intros [H|H]; [discriminate|assumption].
Qed.

Lemma dropna_Permutation {A : Type} (c1 c2 : list (option A)) :
  Permutation c1 c2 -> Permutation (dropna c1) (dropna c2).
Proof.
  induction 1 as [|[x|] ? ? ? IH|[x|] [y|] ?|? ? ? ? IH1 ? IH2]; simpl;
    auto using Permutation_refl, perm_skip, perm_swap.
  eapply perm_trans; eassumption.
Qed.

Lemma filter_fixed {A : Type} (p : A -> bool) (l : list A) :
  filter p l = l <-> forall x, In x l -> p x = true.
Proof.
  induction l as [|a l IH]; simpl.
  - split; [intros _ x []|reflexivity].
  - destruct (p a) eqn:Ha.
    + split.
      * intros H x [->|Hx]; [assumption|].
        apply IH; [congruence|assumption].
      * intros H. f_equal. apply IH. auto.
    + split.
      * intros H. exfalso.
        assert (Hlen : (List.length (filter p l) <= List.length l)%nat)
          by apply filter_length_le.
        rewrite H in Hlen. simpl in Hlen. lia.
      * intros H. specialize (H a (or_introl eq_refl)). congruence.
Qed.

Lemma filter_none {A : Type} (p : A -> bool) (l : list A) :
  (forall x, In x l -> p x = false) -> filter p l = [].
Proof.
  induction l as [|a l IH]; simpl; intros H; [reflexivity|].
  rewrite (H a (or_introl eq_refl)). apply IH. auto.
Qed.

Section SortFacts.
Context {A : Type}.
Variable leb : A -> A -> bool.

Lemma insert_sorted_Permutation (x : A) (l : list A) :
  Permutation (insert_sorted leb x l) (x :: l).
Proof.
  induction l as [|y l IH]; simpl; [apply Permutation_refl|].
  destruct (leb x y); [apply Permutation_refl|].
  eapply perm_trans; [apply perm_skip, IH|apply perm_swap].
Qed.

Lemma sort_by_Permutation (l : list A) : Permutation (sort_by leb l) l.
Proof.
  induction l as [|x l IH]; simpl; [constructor|].
  eapply perm_trans; [apply insert_sorted_Permutation|].
  apply perm_skip, IH.
Qed.

Lemma sort_by_In (l : list A) (x : A) : In x (sort_by leb l) <-> In x l.
Proof.
  split; apply Permutation_in;
    [|apply Permutation_sym]; apply sort_by_Permutation.
Qed.

Lemma sort_by_length (l : list A) :
  List.length (sort_by leb l) = List.length l.
Proof. apply Permutation_length, sort_by_Permutation. Qed.

Lemma sort_by_NoDup (l : list A) : NoDup l -> NoDup (sort_by leb l).
Proof.
  apply Permutation_NoDup, Permutation_sym, sort_by_Permutation.
Qed.

Hypothesis leb_total : forall a b, leb a b = true \/ leb b a = true.
Hypothesis leb_trans :
  forall a b c, leb a b = true -> leb b c = true -> leb a c = true.

(** The order a stable sort leaves: [a] before [b] when [a] is [leb] to
    [b] and, if they tie, [a] was before [b] in the input ([S a b]). *)
Variable S : A -> A -> Prop.

Definition stable_order (a b : A) : Prop :=
  leb a b = true /\ (leb b a = true -> S a b).

Lemma insert_sorted_stable (x : A) (l : list A) :
  StronglySorted stable_order l -> Forall (S x) l ->
  StronglySorted stable_order (insert_sorted leb x l).
Proof.
  induction l as [|y l IH]; simpl; intros Hs Hx.
  - constructor; constructor.
  - inversion Hs as [|? ? Hl Hy]; subst.
    inversion Hx as [|? ? Hxy Hxl]; subst.
    destruct (leb x y) eqn:E.
    + constructor; [assumption|].
      constructor.
      * split; auto.
      * rewrite Forall_forall in *. intros z Hz. split.
        -- apply leb_trans with y; [assumption|]. apply (Hy z Hz).
        -- intros _. apply Hxl, Hz.
    + constructor; [apply IH; assumption|].
      rewrite Forall_forall in *. intros z Hz.
      apply (Permutation_in _ (insert_sorted_Permutation x l)) in Hz.
      destruct Hz as [<-|Hz]; [|apply Hy, Hz].
      split.
      * destruct (leb_total x y) as [H|H]; [congruence|assumption].
      * congruence.
Qed.

Lemma sort_by_stable (l : list A) :
  StronglySorted S l -> StronglySorted stable_order (sort_by leb l).
Proof.
  induction l as [|x l IH]; simpl; intros Hs; [constructor|].
  inversion Hs as [|? ? Hl Hx]; subst.
  apply insert_sorted_stable; [apply IH; assumption|].
  rewrite Forall_forall in *. intros z Hz. apply Hx.
  apply (Permutation_in _ (sort_by_Permutation l)), Hz.
Qed.

End SortFacts.

Lemma StronglySorted_any {A : Type} (l : list A) :
  StronglySorted (fun _ _ => True) l.
Proof.
  induction l; constructor; [assumption|].
  apply Forall_forall. auto.
Qed.

Lemma StronglySorted_weaken {A : Type} (R R' : A -> A -> Prop) (l : list A) :
  (forall a b, In a l -> In b l -> R a b -> R' a b) ->
  StronglySorted R l -> StronglySorted R' l.
Proof.
  induction l as [|x l IH]; intros H Hs; [constructor|].
  inversion Hs as [|? ? Hl Hx]; subst. constructor.
  - apply IH; [|assumption]. intros a b Ha Hb. apply H; simpl; auto.
  - rewrite Forall_forall in *. intros z Hz.
    apply H; simpl; auto.
Qed.

Lemma StronglySorted_NoDup_strict {A : Type} (R : A -> A -> Prop) (l : list A) :
  StronglySorted R l -> NoDup l ->
  StronglySorted (fun a b => R a b /\ a <> b) l.
Proof.
  induction l as [|x l IH]; intros Hs Hn; [constructor|].
  inversion Hs as [|? ? Hl Hx]; subst.
  inversion Hn as [|? ? Hnx Hnl]; subst.
  constructor; [apply IH; assumption|].
  rewrite Forall_forall in *. intros z Hz. split; [apply Hx, Hz|].
  intros ->. contradiction.
Qed.

Lemma StronglySorted_map {A B : Type} (R : B -> B -> Prop) (f : A -> B)
    (l : list A) :
  StronglySorted (fun a b => R (f a) (f b)) l <-> StronglySorted R (map f l).
Proof.
  induction l as [|x l IH]; simpl.
  - split; constructor.
  - split; intros Hs; inversion Hs as [|? ? Hl Hx]; subst; constructor;
      try (apply IH; assumption).
    + rewrite Forall_forall in *. intros z Hz.
      apply in_map_iff in Hz. destruct Hz as [a [<- Ha]]. auto.
    + rewrite Forall_forall in *. intros z Hz. apply Hx, in_map, Hz.
Qed.

Lemma firstn_In {A : Type} (n : nat) (l : list A) (x : A) :
  In x (firstn n l) -> In x l.
Proof.
  revert l. induction n as [|n IH]; intros [|y l]; simpl; try tauto.
  intros [->|H]; auto.
Qed.

Lemma StronglySorted_firstn {A : Type} (R : A -> A -> Prop) (n : nat)
    (l : list A) :
  StronglySorted R l -> StronglySorted R (firstn n l).
Proof.
  revert l. induction n as [|n IH]; intros [|x l] Hs; simpl;
    try constructor.
  - inversion Hs; subst. apply IH. assumption.
  - inversion Hs as [|? ? Hl Hx]; subst.
    rewrite Forall_forall in *. intros z Hz. apply Hx.
    apply firstn_In in Hz. assumption.
Qed.

Lemma StronglySorted_app_order {A : Type} (R : A -> A -> Prop)
    (l1 l2 : list A) :
  StronglySorted R (l1 ++ l2) ->
  forall a b, In a l1 -> In b l2 -> R a b.
Proof.
  induction l1 as [|x l1 IH]; simpl; intros H a b Ha Hb; [destruct Ha|].
  inversion H as [|? ? Hs Hx]; subst. destruct Ha as [<-|Ha].
  - rewrite Forall_forall in Hx. apply Hx, in_or_app. auto.
  - apply IH; assumption.
Qed.

(** ** Facts on the left merge *)

Section MergeFacts.
Context {L R : Type}.
Variable on : L -> R -> bool.

Lemma merge_left_app (l1 l2 : list L) (right : list R) :
  merge_left on (l1 ++ l2) right
  = merge_left on l1 right ++ merge_left on l2 right.
Proof. unfold merge_left. apply flat_map_app. Qed.

(** No left row is dropped. *)
Lemma merge_left_keeps (left : list L) (right : list R) (l : L) :
  In l left -> exists r, In (l, r) (merge_left on left right).
Proof.
  intros Hl. unfold merge_left.
  destruct (filter (on l) right) as [|m ms] eqn:E.
  - exists None. apply in_flat_map. exists l. split; [assumption|].
    rewrite E. simpl. auto.
  - exists (Some m). apply in_flat_map. exists l. split; [assumption|].
    rewrite E. simpl. auto.
Qed.

Lemma merge_left_length (left : list L) (right : list R) :
  (List.length left <= List.length (merge_left on left right))%nat.
Proof.
  induction left as [|l left IH]; simpl; [lia|].
  rewrite length_app.
  destruct (filter (on l) right); simpl; lia.
Qed.

(** Every row of the merge is a left row with a right row that matches
    it, or with nothing when no right row matches. *)
Lemma merge_left_In (left : list L) (right : list R) (l : L) (r : option R) :
  In (l, r) (merge_left on left right) ->
  In l left
  /\ match r with
     | Some x => In x right /\ on l x = true
     | None => forall x, In x right -> on l x = false
     end.
Proof.
  unfold merge_left. rewrite in_flat_map. intros [l' [Hl' H]].
  destruct (filter (on l') right) as [|m ms] eqn:E.
  - destruct H as [H|[]]. inversion H; subst. split; [assumption|].
    intros x Hx. destruct (on l x) eqn:Ex; [|reflexivity].
    assert (Hin : In x (filter (on l) right)) by (apply filter_In; auto).
    rewrite E in Hin. destruct Hin.
  - rewrite <- E in H. apply in_map_iff in H.
    destruct H as [x [Hx Hin]]. inversion Hx; subst.
    apply filter_In in Hin. tauto.
Qed.

Lemma merge_left_row_lookup (l : L) (right : list R) :
  (List.length (filter (on l) right) <= 1)%nat ->
  match filter (on l) right with
  | [] => [(l, None)]
  | ms => map (fun r => (l, Some r)) ms
  end = [(l, find (on l) right)].
Proof.
  induction right as [|r right IHr]; simpl; intros H; [reflexivity|].
  destruct (on l r) eqn:E; simpl in *.
  - destruct (filter (on l) right); simpl in *; [reflexivity|lia].
  - apply IHr, H.
Qed.

(** When at most one right row matches each left row, the merge is a
    lookup: one output row per left row. *)
Lemma merge_left_lookup (left : list L) (right : list R) :
  (forall l, In l left -> (List.length (filter (on l) right) <= 1)%nat) ->
  merge_left on left right = map (fun l => (l, find (on l) right)) left.
Proof.
  induction left as [|l left IH]; simpl; intros H; [reflexivity|].
  rewrite merge_left_row_lookup by (apply H; auto).
  simpl. f_equal. apply IH. intros; apply H; auto.
Qed.

End MergeFacts.

(** With unique keys on the right, at most one right row has a given key. *)
Lemma filter_unique_key {R K : Type} (key : R -> K) (p : R -> bool) (k : K)
    (right : list R) :
  NoDup (map key right) -> (forall r, p r = true -> key r = k) ->
  (List.length (filter p right) <= 1)%nat.
Proof.
  intros Hnd Hp. induction right as [|r right IH]; simpl; [lia|].
  inversion Hnd as [|? ? Hr Hnd']; subst.
  destruct (p r) eqn:E; [|apply IH; assumption].
  simpl. rewrite filter_none; [simpl; lia|].
  intros x Hx. destruct (p x) eqn:Ex; [|reflexivity].
  exfalso. apply Hr. rewrite (Hp r E), <- (Hp x Ex). apply in_map, Hx.
Qed.

Lemma key_eqb_true {A : Type} (eq_dec : forall x y : A, {x = y} + {x <> y})
    (a b : option A) :
  key_eqb eq_dec a b = true <-> a = b.
Proof.
  unfold key_eqb. destruct (option_eq_dec eq_dec a b); split;
    congruence.
Qed.

Lemma find_no_match {A : Type} (p : A -> bool) (l : list A) :
  (forall x, In x l -> p x = false) -> find p l = None.
Proof.
  induction l as [|a l IH]; simpl; intros H; [reflexivity|].
  rewrite (H a (or_introl eq_refl)). apply IH. auto.
Qed.

(* ================================================================== *)
(** ** Cube assembly *)
(* ================================================================== *)

Lemma on_client_id_true (f : DfVente) (c : DfClient) :
  on_client_id f c = true -> client_id c = v_client_id f.
Proof. unfold on_client_id. rewrite key_eqb_true. auto. Qed.

Lemma on_produit_id_true (f : DfVente) (p : DfProduit) :
  on_produit_id f p = true -> produit_id p = v_produit_id f.
Proof. unfold on_produit_id. rewrite key_eqb_true. auto. Qed.

Lemma on_date_true (f : DfVente) (t : DfTemps) :
  on_date f t = true -> t_date t = v_date f.
Proof. unfold on_date. rewrite key_eqb_true. auto. Qed.

(** Whatever the dimension tables hold, no fact row is dropped: every fact
    row is the fact part of a row of the cube, and the cube has at least
    as many rows as the fact table. *)
Lemma df_cube_no_row_dropped (ventes : list DfVente) (clients : list DfClient)
    (produits : list DfProduit) (times : list DfTemps) :
  (List.length ventes
   <= List.length (df_cube ventes clients produits times))%nat
  /\ forall f, In f ventes ->
       exists r, In r (df_cube ventes clients produits times) /\ vente r = f.
Proof.
  unfold df_cube. split.
  - rewrite length_map.
    eapply Nat.le_trans; [|apply merge_left_length].
    eapply Nat.le_trans; [|apply merge_left_length].
    apply merge_left_length.
  - intros f Hf.
    destruct (merge_left_keeps on_client_id ventes clients f Hf) as [c Hc].
    destruct (merge_left_keeps (fun r p => on_produit_id (fst r) p) _
                produits _ Hc) as [p Hp].
    destruct (merge_left_keeps (fun r t => on_date (fst (fst r)) t) _
                times _ Hp) as [t Ht].
    exists (mkCubeRow f c p t). split; [|reflexivity].
    apply in_map_iff. exists (f, c, p, t). split; [reflexivity|assumption].
Qed.

(** C1 (amended).  When no key occurs twice in a dimension table, cube
    assembly is the chain of left joins fact -> client -> product -> time
    read as three lookups: the cube has one row per fact row, in the order
    of the fact table, hence exactly as many rows; and a fact row whose
    client_id, produit_id or date has no match in its dimension is in the
    cube with that dimension part null. *)
Theorem df_cube_unique_keys (ventes : list DfVente) (clients : list DfClient)
    (produits : list DfProduit) (times : list DfTemps) :
  NoDup (map client_id clients) ->
  NoDup (map produit_id produits) ->
  NoDup (map t_date times) ->
  let cube := df_cube ventes clients produits times in
  cube = map (cube_row_of clients produits times) ventes
  /\ List.length cube = List.length ventes
  /\ map vente cube = ventes
  /\ forall r, In r cube ->
       ((forall c, In c clients -> client_id c <> v_client_id (vente r)) ->
        client r = None)
       /\ ((forall p, In p produits ->
              produit_id p <> v_produit_id (vente r)) ->
           produit r = None)
       /\ ((forall t, In t times -> t_date t <> v_date (vente r)) ->
           temps r = None).
Proof.
  intros Hc Hp Ht cube.
  assert (E : cube = map (cube_row_of clients produits times) ventes).
  { unfold cube, df_cube.
    rewrite (merge_left_lookup on_client_id).
    2:{ intros l _.
        apply (filter_unique_key client_id _ (v_client_id l)); [assumption|].
        intros r. apply on_client_id_true. }
    rewrite (merge_left_lookup (fun r p => on_produit_id (fst r) p)).
    2:{ intros l _.
        apply (filter_unique_key produit_id _ (v_produit_id (fst l)));
          [assumption|].
        intros r. apply on_produit_id_true. }
    rewrite (merge_left_lookup (fun r t => on_date (fst (fst r)) t)).
    2:{ intros l _.
        apply (filter_unique_key t_date _ (v_date (fst (fst l))));
          [assumption|].
        intros r. apply on_date_true. }
    rewrite !map_map. reflexivity. }
  split; [assumption|]. rewrite E. split; [apply length_map|].
  split.
  - rewrite map_map. simpl. apply map_id.
  - intros r Hr. apply in_map_iff in Hr. destruct Hr as [f [<- _]].
    simpl. repeat split; intros H; apply find_no_match; intros x Hx.
    + destruct (on_client_id f x) eqn:Ex; [|reflexivity].
      apply on_client_id_true in Ex. exfalso. apply (H x Hx Ex).
    + destruct (on_produit_id f x) eqn:Ex; [|reflexivity].
      apply on_produit_id_true in Ex. exfalso. apply (H x Hx Ex).
    + destruct (on_date f x) eqn:Ex; [|reflexivity].
      apply on_date_true in Ex. exfalso. apply (H x Hx Ex).
Qed.

(* ================================================================== *)
(** ** Filters and scalar KPIs *)
(* ================================================================== *)

Section FullDomain.
Context {K : Type}.
Variable K_eq_dec : forall x y : K, {x = y} + {x <> y}.
Variable K_leb : K -> K -> bool.
Variable col : CubeRow -> option K.

(** The values offered for a filter are the non-null values observed. *)
Lemma dispo_In (df : list CubeRow) (v : K) :
  In v (sort_by K_leb (unique K_eq_dec (dropna (map col df))))
  <-> exists r, In r df /\ col r = Some v.
Proof.
  rewrite sort_by_In, unique_In, dropna_In, in_map_iff.
  split; intros [r [H1 H2]]; exists r; auto.
Qed.

Lemma isin_dispo (df : list CubeRow) (r : CubeRow) :
  In r df ->
  isin K_eq_dec (col r)
    (sort_by K_leb (unique K_eq_dec (dropna (map col df))))
  = notna (col r).
Proof.
  intros Hr. destruct (col r) as [v|] eqn:E; simpl; [|reflexivity].
  destruct (in_dec K_eq_dec v _) as [H|H]; [reflexivity|].
  exfalso. apply H. apply dispo_In. exists r. auto.
Qed.


End FullDomain.


Lemma mean_col_None (col : list (option Qc)) :
  mean_col col = None <-> dropna col = [].
Proof.
  unfold mean_col. destruct (dropna col); split; congruence.
Qed.

(** C4.  When the filtered subset is empty, the sum of the amounts and the
    sum of the quantities are 0 and the mean price is the undefined value
    (NaN, here [None]), which is not the number 0; no operation of the
    three can raise.  The mean is undefined only when the subset holds no
    price at all. *)
Theorem kpis_of_empty_subset (df : list CubeRow) (ys : list Z)
    (cs cats : list string) :
  filtered_df df ys cs cats = [] ->
  total_ventes (filtered_df df ys cs cats) = Q2Qc 0
  /\ total_quantite (filtered_df df ys cs cats) = Q2Qc 0
  /\ prix_moyen (filtered_df df ys cs cats) = None
  /\ prix_moyen (filtered_df df ys cs cats) <> Some (Q2Qc 0)
  /\ forall f : list CubeRow,
       prix_moyen f = None <-> forall r, In r f -> col_prix r = None.
Proof.
  intros ->. repeat split; try discriminate.
  - unfold prix_moyen. rewrite mean_col_None. intros H r Hr.
    destruct (col_prix r) as [v|] eqn:E; [|reflexivity].
    assert (Hin : In v (dropna (map col_prix f))).
    { apply dropna_In. rewrite <- E. apply in_map, Hr. }
    rewrite H in Hin. destruct Hin.
  - unfold prix_moyen. rewrite mean_col_None. intros H.
    destruct (dropna (map col_prix f)) as [|v vs] eqn:E; [reflexivity|].
    assert (Hin : In v (dropna (map col_prix f))) by (rewrite E; simpl; auto).
    apply dropna_In, in_map_iff in Hin. destruct Hin as [r [Hr1 Hr2]].
    rewrite (H r Hr2) in Hr1. discriminate.
Qed.

(* ================================================================== *)
(** ** Orders on text and numbers *)
(* ================================================================== *)

Lemma String_compare_refl (a : string) : String.compare a a = Eq.
Proof.
  change String.compare with String_as_OT.compare.
  destruct (String_as_OT.compare_spec a a) as [_|H|H]; [reflexivity| |];
    exfalso; apply (StrictOrder_Irreflexive a H).
Qed.

Lemma String_leb_trans (a b c : string) :
  String.leb a b = true -> String.leb b c = true -> String.leb a c = true.
Proof.
  unfold String.leb. change String.compare with String_as_OT.compare.
  destruct (String_as_OT.compare_spec a b) as [Hab|Hab|Hab];
    try discriminate; intros _;
    destruct (String_as_OT.compare_spec b c) as [Hbc|Hbc|Hbc];
    try discriminate; intros _; unfold String_as_OT.eq in *; subst.
  - change String_as_OT.compare with String.compare.
    rewrite String_compare_refl. reflexivity.
  - unfold String_as_OT.lt in Hbc. rewrite Hbc. reflexivity.
  - unfold String_as_OT.lt in Hab. rewrite Hab. reflexivity.
  - assert (H : String_as_OT.lt a c)
      by (eapply (StrictOrder_Transitive a b c); eassumption).
    unfold String_as_OT.lt in H. rewrite H. reflexivity.
Qed.

Lemma String_ltb_of_leb (a b : string) :
  String.leb a b = true -> a <> b -> String.ltb a b = true.
Proof.
  unfold String.leb, String.ltb.
  destruct (String.compare a b) eqn:E; try discriminate; [|reflexivity].
  intros _ H. exfalso. apply H, String.compare_eq_iff, E.
Qed.

Lemma Qc_leb_le (a b : Qc) : Qc_leb a b = true <-> (a <= b)%Qc.
Proof. unfold Qc_leb. rewrite Qle_bool_iff. reflexivity. Qed.

Lemma Qc_leb_total (a b : Qc) : Qc_leb a b = true \/ Qc_leb b a = true.
Proof.
  rewrite !Qc_leb_le. destruct (Qclt_le_dec a b) as [H|H]; [|auto].
  left. apply Qclt_le_weak, H.
Qed.

Lemma Qc_leb_trans (a b c : Qc) :
  Qc_leb a b = true -> Qc_leb b c = true -> Qc_leb a c = true.
Proof. rewrite !Qc_leb_le. apply Qcle_trans. Qed.

(** A sorted list of distinct values is strictly increasing. *)
Lemma sort_by_strict {A : Type} (leb : A -> A -> bool) (l : list A) :
  (forall a b, leb a b = true \/ leb b a = true) ->
  (forall a b c, leb a b = true -> leb b c = true -> leb a c = true) ->
  NoDup l ->
  StronglySorted (fun a b => leb a b = true /\ a <> b) (sort_by leb l).
Proof.
  intros Htot Htrans Hnd.
  apply StronglySorted_NoDup_strict; [|apply sort_by_NoDup, Hnd].
  apply StronglySorted_weaken with (R := stable_order leb (fun _ _ => True)).
  - intros a b _ _ [H _]. exact H.
  - apply sort_by_stable; auto using StronglySorted_any.
Qed.

(* ================================================================== *)
(** ** Grouped aggregates *)
(* ================================================================== *)

Lemma filter_Permutation {A : Type} (p : A -> bool) (l1 l2 : list A) :
  Permutation l1 l2 -> Permutation (filter p l1) (filter p l2).
Proof.
  induction 1 as [|x ? ? ? IH|x y ?|? ? ? ? IH1 ? IH2]; simpl.
  - constructor.
  - destruct (p x); [apply perm_skip|]; exact IH.
  - destruct (p x), (p y); try apply Permutation_refl. apply perm_swap.
  - eapply perm_trans; eassumption.
Qed.

Lemma sum_col_Permutation (c1 c2 : list (option Qc)) :
  Permutation c1 c2 -> sum_col c1 = sum_col c2.
Proof.
  intros H. apply dropna_Permutation in H. unfold sum_col.
  induction H as [|x ? ? ? IH|x y ?|? ? ? ? IH1 ? IH2]; simpl.
  - reflexivity.
  - rewrite IH. reflexivity.
  - rewrite !Qcplus_assoc, (Qcplus_comm y x). reflexivity.
  - congruence.
Qed.

(** Two strictly sorted lists with the same elements are the same list. *)
Lemma strictly_sorted_unique {A : Type} (R : A -> A -> Prop) (l1 l2 : list A) :
  (forall a b, R a b -> R b a -> False) ->
  StronglySorted R l1 -> StronglySorted R l2 ->
  (forall x, In x l1 <-> In x l2) -> l1 = l2.
Proof.
  intros Hasym. revert l2.
  induction l1 as [|x l1 IH]; intros [|y l2] H1 H2 Hin.
  - reflexivity.
  - exfalso. apply (Hin y). simpl. auto.
  - exfalso. apply (Hin x). simpl. auto.
  - inversion H1 as [|? ? Hs1 Hx]; subst.
    inversion H2 as [|? ? Hs2 Hy]; subst.
    rewrite Forall_forall in Hx, Hy.
    assert (E : x = y).
    { destruct (proj1 (Hin x) (or_introl eq_refl)) as [E|Hx2]; [auto|].
      destruct (proj2 (Hin y) (or_introl eq_refl)) as [E|Hy1]; [auto|].
      exfalso. apply (Hasym x y); auto. }
    subst y. f_equal. apply IH; try assumption.
    intros z. split; intros Hz.
    + destruct (proj1 (Hin z) (or_intror Hz)) as [E|Hz2]; [|exact Hz2].
      subst z. exfalso. apply (Hasym x x); auto.
    + destruct (proj2 (Hin z) (or_intror Hz)) as [E|Hz1]; [|exact Hz1].
      subst z. exfalso. apply (Hasym x x); auto.
Qed.

Section GroupByFacts.
Context {K : Type}.
Variable K_eq_dec : forall x y : K, {x = y} + {x <> y}.
Variable K_leb : K -> K -> bool.
Variable key : CubeRow -> option K.
Variable val : CubeRow -> option Qc.

Lemma groupby_sum_keys (df : list CubeRow) :
  map fst (groupby_sum K_eq_dec K_leb key val df)
  = sort_by K_leb (unique K_eq_dec (dropna (map key df))).
Proof. unfold groupby_sum. rewrite map_map. simpl. apply map_id. Qed.

Lemma groupby_sum_In (df : list CubeRow) (k : K) (q : Qc) :
  In (k, q) (groupby_sum K_eq_dec K_leb key val df) ->
  q = sum_col (map val (group_rows K_eq_dec key k df))
  /\ exists r, In r df /\ key r = Some k.
Proof.
  unfold groupby_sum. rewrite in_map_iff. intros [k' [E Hk]].
  inversion E; subst. split; [reflexivity|].
  apply dispo_In in Hk. exact Hk.
Qed.

Lemma groupby_sum_length (df : list CubeRow) :
  List.length (groupby_sum K_eq_dec K_leb key val df)
  = List.length (unique K_eq_dec (dropna (map key df))).
Proof. unfold groupby_sum. rewrite length_map. apply sort_by_length. Qed.

Lemma groupby_sum_NoDup (df : list CubeRow) :
  NoDup (map fst (groupby_sum K_eq_dec K_leb key val df)).
Proof. rewrite groupby_sum_keys. apply sort_by_NoDup, unique_NoDup. Qed.

Hypothesis K_leb_total : forall a b, K_leb a b = true \/ K_leb b a = true.
Hypothesis K_leb_trans :
  forall a b c, K_leb a b = true -> K_leb b c = true -> K_leb a c = true.
Hypothesis K_leb_antisym :
  forall a b, K_leb a b = true -> K_leb b a = true -> a = b.

(** A group-by does not see the order of the rows of its frame. *)
Lemma groupby_sum_Permutation (f1 f2 : list CubeRow) :
  Permutation f1 f2 ->
  groupby_sum K_eq_dec K_leb key val f1
  = groupby_sum K_eq_dec K_leb key val f2.
Proof.
  intros H. unfold groupby_sum.
  assert (E : sort_by K_leb (unique K_eq_dec (dropna (map key f1)))
              = sort_by K_leb (unique K_eq_dec (dropna (map key f2)))).
  { apply (strictly_sorted_unique (fun a b => K_leb a b = true /\ a <> b)).
    - intros a b [H1 N] [H2 _]. apply N, K_leb_antisym; assumption.
    - apply sort_by_strict; auto using unique_NoDup.
    - apply sort_by_strict; auto using unique_NoDup.
    - intros k. rewrite !sort_by_In, !unique_In, !dropna_In.
      split; apply Permutation_in, Permutation_map;
        [exact H|apply Permutation_sym, H]. }
  rewrite E. apply map_ext. intros k. f_equal.
  apply sum_col_Permutation, Permutation_map, filter_Permutation, H.
Qed.

End GroupByFacts.

Lemma NoDup_firstn {A : Type} (n : nat) (l : list A) :
  NoDup l -> NoDup (firstn n l).
Proof.
  revert l. induction n as [|n IH]; intros [|x l] H; simpl;
    try constructor.
  - inversion H; subst. intros Hx. apply firstn_In in Hx. contradiction.
  - inversion H; subst. apply IH. assumption.
Qed.

(** The groups of the product group-by come out in increasing name order. *)
Lemma produits_groups_sorted (f : list CubeRow) :
  StronglySorted (fun a b => String.ltb (fst a) (fst b) = true)
    (groupby_sum string_dec String.leb col_nom_produit col_quantite f).
Proof.
  apply (proj2 (StronglySorted_map (fun a b => String.ltb a b = true) fst _)).
  rewrite groupby_sum_keys.
  eapply StronglySorted_weaken;
    [|apply sort_by_strict;
      [apply String.leb_total|apply String_leb_trans|apply unique_NoDup]].
  intros a b _ _ [H1 H2]. apply String_ltb_of_leb; assumption.
Qed.

(** C5 (amended).  The top-products aggregate sums quantity by product
    name over the rows that have one, sorts the groups by decreasing
    summed quantity and keeps at most 10 rows: as many rows as there are
    distinct product names when these are fewer than 10.  The rows kept
    are the largest groups: a product left out has no larger summed
    quantity than a product kept.  Groups reach the sort in increasing
    name order, so the aggregate is the same for any reordering of the
    rows of the cube: ties cannot follow the order in which names are
    first met.  The sort being stable, rows with equal quantities come out
    in increasing name order. *)
Theorem top_produits_spec (f : list CubeRow) :
  (forall n q, In (n, q) (top_produits f) ->
     q = sum_col (map col_quantite (group_rows string_dec col_nom_produit n f))
     /\ exists r, In r f /\ col_nom_produit r = Some n)
  /\ NoDup (map fst (top_produits f))
  /\ StronglySorted top_order (top_produits f)
  /\ StronglySorted (fun a b => (snd b <= snd a)%Qc) (top_produits f)
  /\ List.length (top_produits f)
     = Nat.min 10
         (List.length (unique string_dec (dropna (map col_nom_produit f))))
  /\ (forall n q n' q',
        In (n, q) (top_produits f) ->
        (exists r, In r f /\ col_nom_produit r = Some n') ->
        q' = sum_col
               (map col_quantite
                  (group_rows string_dec col_nom_produit n' f)) ->
        ~ In (n', q') (top_produits f) -> (q' <= q)%Qc)
  /\ forall f', Permutation f f' -> top_produits f' = top_produits f.
Proof.
  unfold top_produits, sort_values_desc.
  set (g := groupby_sum string_dec String.leb col_nom_produit col_quantite f).
  set (desc := fun a b : string * Qc => Qc_leb (snd b) (snd a)).
  assert (Hs : StronglySorted top_order (sort_by desc g)).
  { eapply StronglySorted_weaken;
      [|apply (sort_by_stable desc) with
          (S := fun a b => String.ltb (fst a) (fst b) = true)].
    - intros a b _ _ [H1 H2]. unfold desc in *. unfold top_order.
      apply Qc_leb_le in H1.
      destruct (Qcle_lt_or_eq _ _ H1) as [Hlt|Heq]; [left; exact Hlt|].
      right. split; [symmetry; exact Heq|].
      apply H2. apply Qc_leb_le. rewrite Heq. apply Qcle_refl.
    - intros a b. apply Qc_leb_total.
    - intros a b c H1 H2. unfold desc in *.
      eapply Qc_leb_trans; eassumption.
    - apply produits_groups_sorted. }
  split; [|split; [|split; [|split; [|split; [|split]]]]].
  - intros n q H. apply firstn_In, sort_by_In in H.
    apply (groupby_sum_In string_dec String.leb) in H. exact H.
  - rewrite <- firstn_map. apply NoDup_firstn.
    eapply Permutation_NoDup;
      [apply Permutation_sym, Permutation_map, sort_by_Permutation|].
    apply groupby_sum_NoDup.
  - apply StronglySorted_firstn, Hs.
  - apply StronglySorted_firstn.
    eapply StronglySorted_weaken; [|exact Hs].
    intros a b _ _ [H|[H _]]; [apply Qclt_le_weak, H|].
    rewrite H. apply Qcle_refl.
  - rewrite length_firstn, sort_by_length. unfold g.
    rewrite groupby_sum_length. reflexivity.
  - intros n q n' q' Hin Hn' Hq' Hout.
    assert (Hall : In (n', q') (sort_by desc g)).
    { apply sort_by_In. unfold g, groupby_sum. apply in_map_iff.
      exists n'. split; [rewrite Hq'; reflexivity|].
      apply dispo_In. exact Hn'. }
    rewrite <- (firstn_skipn 10 (sort_by desc g)) in Hall, Hs.
    apply in_app_or in Hall. destruct Hall as [Hall|Hall]; [contradiction|].
    destruct (StronglySorted_app_order _ _ _ Hs (n, q) (n', q') Hin Hall)
      as [H|[H _]]; simpl in H; [apply Qclt_le_weak, H|].
    rewrite H. apply Qcle_refl.
  - intros f' H. unfold g.
    rewrite (groupby_sum_Permutation string_dec String.leb col_nom_produit
               col_quantite String.leb_total String_leb_trans
               String.leb_antisym f f' H).
    reflexivity.
Qed.

(* ================================================================== *)
(** ** Order on timestamps and the quarter *)
(* ================================================================== *)

Lemma ts_compare_Eq (a b : Timestamp) : ts_compare a b = Eq -> a = b.
Proof.
  destruct a as [y1 m1 d1 t1], b as [y2 m2 d2 t2].
  unfold ts_compare. simpl.
  destruct (Z.compare_spec y1 y2); try discriminate.
  destruct (Z.compare_spec m1 m2); try discriminate.
  destruct (Z.compare_spec d1 d2); try discriminate.
  destruct (Z.compare_spec t1 t2); try discriminate.
  intros _. subst. reflexivity.
Qed.

(** [ts_leb] read on the fields. *)
Lemma ts_leb_fields (a b : Timestamp) :
  ts_leb a b = true
  <-> (ts_year a < ts_year b
       \/ ts_year a = ts_year b
          /\ (ts_month a < ts_month b
              \/ ts_month a = ts_month b
                 /\ (ts_day a < ts_day b
                     \/ ts_day a = ts_day b /\ ts_time a <= ts_time b)))%Z.
Proof.
  destruct a as [y1 m1 d1 t1], b as [y2 m2 d2 t2].
  unfold ts_leb, ts_compare. simpl.
  destruct (Z.compare_spec y1 y2);
    [destruct (Z.compare_spec m1 m2);
      [destruct (Z.compare_spec d1 d2);
        [destruct (Z.compare_spec t1 t2)| |]| |]| |];
    split; intros Hle; try discriminate; try reflexivity; lia.
Qed.

Lemma ts_leb_total (a b : Timestamp) : ts_leb a b = true \/ ts_leb b a = true.
Proof. rewrite !ts_leb_fields. lia. Qed.

Lemma ts_leb_trans (a b c : Timestamp) :
  ts_leb a b = true -> ts_leb b c = true -> ts_leb a c = true.
Proof. rewrite !ts_leb_fields. lia. Qed.

Lemma ts_lt_of_leb (a b : Timestamp) :
  ts_leb a b = true -> a <> b -> ts_lt a b.
Proof.
  unfold ts_leb, ts_lt. destruct (ts_compare a b) eqn:E; try discriminate.
  - intros _ H. exfalso. apply H, ts_compare_Eq, E.
  - reflexivity.
Qed.

(** The quarter pandas computes is the ceiling of month / 3. *)
Lemma dt_quarter_ceil (t : Timestamp) : dt_quarter t = ceil_div3 (ts_month t).
Proof.
  unfold dt_quarter, ceil_div3, Qceiling, Qfloor. simpl.
  rewrite Z.mul_1_r.
  Z.to_euclidean_division_equations. lia.
Qed.

(* ================================================================== *)
(** ** The star schema *)
(* ================================================================== *)

Lemma replace_country_alias (s : string) :
  In s country_aliases -> replace country_mapping s = "USA".
Proof.
  simpl. intros [<-|[<-|[<-|[]]]]; reflexivity.
Qed.

Lemma replace_country_other (s : string) :
  ~ In s country_aliases -> replace country_mapping s = s.
Proof.
  simpl. intros H.
  repeat match goal with
         | |- context [String.eqb s ?k] =>
             destruct (String.eqb_spec s k);
               [exfalso; apply H; intuition congruence|]
         end.
  reflexivity.
Qed.

Lemma replace_country_not_alias (s : string) :
  ~ In (replace country_mapping s) country_aliases.
Proof.
  destruct (in_dec string_dec s country_aliases) as [H|H].
  - rewrite (replace_country_alias s H). simpl.
    intros [E|[E|[E|[]]]]; discriminate.
  - rewrite (replace_country_other s H). exact H.
Qed.

(** C6.  Whatever the cleaned client table holds, the client dimension is
    made of its rows with the country replaced: a row whose country is
    one of the three aliases gets the one token USA, a row with any
    other country keeps it, the other columns are untouched, and no
    alias is left in the client dimension. *)
Theorem country_normalization (e : Extracts) :
  (forall d, In d (dim_clients (build_warehouse e))
     <-> exists c, In c (dropna_clients (clients_df e)) /\ d = replace_pays c)
  /\ (forall c : DimClient,
        In (pays c) ["États-Unis"; "United States"; "US"] ->
        pays (replace_pays c) = "USA")
  /\ (forall c : DimClient,
        ~ In (pays c) ["États-Unis"; "United States"; "US"] ->
        pays (replace_pays c) = pays c)
  /\ (forall c : DimClient,
        client_id (replace_pays c) = client_id c
        /\ nom (replace_pays c) = nom c
        /\ ville (replace_pays c) = ville c
        /\ segment (replace_pays c) = segment c)
  /\ forall d, In d (dim_clients (build_warehouse e)) ->
       ~ In (pays d) ["États-Unis"; "United States"; "US"].
Proof.
  assert (Hin : forall d, In d (dim_clients (build_warehouse e))
            <-> exists c, In c (dropna_clients (clients_df e))
                          /\ d = replace_pays c).
  { intros d. unfold build_warehouse, drop_duplicates. simpl.
    rewrite unique_In, in_map_iff.
    split; intros [c [H1 H2]]; exists c; auto. }
  split; [exact Hin|].
  split; [intros c H; apply (replace_country_alias (pays c) H)|].
  split; [intros c H; apply (replace_country_other (pays c) H)|].
  split; [intros c; repeat split|].
  intros d Hd. apply Hin in Hd. destruct Hd as [c [_ ->]].
  apply (replace_country_not_alias (pays c)).
Qed.

Lemma NoDup_map_injective {A B : Type} (f : A -> B) (l : list A) :
  (forall x y, f x = f y -> x = y) -> NoDup l -> NoDup (map f l).
Proof.
  intros Hf. induction 1 as [|x l Hx Hl IH]; simpl; constructor;
    [|assumption].
  rewrite in_map_iff. intros [y [E Hy]]. apply Hf in E. subst. contradiction.
Qed.

(** The dates of the time dimension are the distinct dates of the fact
    table, reordered. *)
Lemma dim_temps_dates (e : Extracts) :
  Permutation (map t_date (dim_temps (build_warehouse e)))
    (unique Timestamp_eq_dec (map v_date (fact_ventes (build_warehouse e)))).
Proof.
  unfold build_warehouse. simpl.
  eapply perm_trans; [apply Permutation_map, sort_by_Permutation|].
  rewrite map_map. simpl. rewrite map_id. apply Permutation_refl.
Qed.

Lemma dim_temps_NoDup (e : Extracts) :
  NoDup (map t_date (dim_temps (build_warehouse e))).
Proof.
  eapply Permutation_NoDup;
    [apply Permutation_sym, dim_temps_dates|apply unique_NoDup].
Qed.

Lemma dim_temps_In (e : Extracts) (d : Timestamp) :
  In d (map t_date (dim_temps (build_warehouse e)))
  <-> In d (map v_date (fact_ventes (build_warehouse e))).
Proof.
  split; intros H.
  - apply (unique_In Timestamp_eq_dec).
    eapply Permutation_in; [apply dim_temps_dates|exact H].
  - eapply Permutation_in; [apply Permutation_sym, dim_temps_dates|].
    apply unique_In. exact H.
Qed.

Lemma dim_temps_rows (e : Extracts) (t : DimTemps) :
  In t (dim_temps (build_warehouse e)) -> t = temps_of_date (t_date t).
Proof.
  unfold build_warehouse. simpl. rewrite sort_by_In, in_map_iff.
  intros [d [<- _]]. reflexivity.
Qed.

Lemma fact_ventes_dates (e : Extracts) (d : Timestamp) :
  In d (map v_date (fact_ventes (build_warehouse e)))
  <-> In d (map v_date (dropna_ventes (ventes_df e))).
Proof.
  unfold build_warehouse, drop_duplicates. simpl. rewrite !in_map_iff.
  split; intros [r [H1 H2]]; exists r; split; auto;
    [apply unique_In in H2|apply unique_In]; assumption.
Qed.

Lemma dim_temps_sorted (e : Extracts) :
  StronglySorted ts_lt (map t_date (dim_temps (build_warehouse e))).
Proof.
  apply (proj1 (StronglySorted_map ts_lt t_date _)).
  assert (Hnd : NoDup (dim_temps (build_warehouse e))).
  { apply (NoDup_map_inv t_date), dim_temps_NoDup. }
  revert Hnd. generalize (dim_temps_rows e).
  unfold build_warehouse. simpl. intros Hrows Hnd.
  eapply StronglySorted_weaken.
  2:{ apply (sort_by_strict (fun a b : DimTemps => ts_leb (t_date a) (t_date b))).
      - intros a b. apply ts_leb_total.
      - intros a b c. apply ts_leb_trans.
      - apply (Permutation_NoDup (sort_by_Permutation _ _) Hnd). }
  intros a b Ha Hb [H1 H2]. apply ts_lt_of_leb; [exact H1|].
  intros E. apply H2. rewrite (Hrows a Ha), (Hrows b Hb), E. reflexivity.
Qed.

(** C7.  Whatever the cleaned sales table holds, the time dimension has
    exactly one row per distinct sale date; each row carries the year,
    month and day of its date and the quarter ceil(month / 3); and the
    rows are in strictly increasing date order. *)
Theorem dim_temps_spec (e : Extracts) :
  NoDup (map t_date (dim_temps (build_warehouse e)))
  /\ (forall d, In d (map t_date (dim_temps (build_warehouse e)))
        <-> In d (map v_date (dropna_ventes (ventes_df e))))
  /\ (forall t, In t (dim_temps (build_warehouse e)) ->
        annee t = ts_year (t_date t)
        /\ mois t = ts_month (t_date t)
        /\ jour t = ts_day (t_date t)
        /\ trimestre t = ceil_div3 (ts_month (t_date t)))
  /\ StronglySorted ts_lt (map t_date (dim_temps (build_warehouse e))).
Proof.
  split; [apply dim_temps_NoDup|].
  split; [intros d; rewrite dim_temps_In; apply fact_ventes_dates|].
  split; [|apply dim_temps_sorted].
  intros t Ht. rewrite (dim_temps_rows e t Ht). simpl.
  repeat split. apply dt_quarter_ceil.
Qed.

(* ================================================================== *)
(** ** The try block and the runs of the ETL *)
(* ================================================================== *)



Section EtlFacts.
Variable to_numeric_cell : string -> option (option Qc).
Variable to_datetime_cell : string -> option Timestamp.
Variable is_na : string -> bool.







Lemma extract_with_ventes (fs : FileSystem) (v : list RawVente) :
  Ventes_csv fs = Some v -> with_ventes fs v = fs.
Proof. destruct fs. simpl. intros ->. reflexivity. Qed.



(** C8.  When one of the three extracts is absent the run fails: the
    [FileNotFoundError] of the first absent extract is reported and the
    file system is left as it was, so no warehouse file is written.  When
    one of the four warehouse files is absent, cube assembly returns no
    cube at all. *)
Theorem missing_file_is_fatal (fs : FileSystem) :
  (Clients_csv fs = None \/ Produits_csv fs = None \/ Ventes_csv fs = None ->
   etl_tables to_numeric_cell to_datetime_cell fs = None
   /\ exists path,
        missing_input fs path
        /\ run_etl to_numeric_cell to_datetime_cell fs
           = (EtlFailed (FileNotFoundError path), fs))
  /\ (Dim_Clients_csv fs = None \/ Dim_Produits_csv fs = None
      \/ Dim_Temps_csv fs = None \/ Fact_Ventes_csv fs = None ->
      load_and_merge_data is_na fs = None).
Proof.
  split.
  - intros H. unfold etl_tables, run_etl, extract, missing_input.
    destruct (Clients_csv fs) as [cl|]; simpl.
    + destruct (Produits_csv fs) as [pr|]; simpl.
      * destruct (Ventes_csv fs) as [ve|]; simpl.
        -- exfalso. destruct H as [H|[H|H]]; discriminate.
        -- split; [reflexivity|]. exists "Ventes.csv". split; auto.
      * split; [reflexivity|]. exists "Produits.csv". split; auto.
    + split; [reflexivity|]. exists "Clients.csv". split; auto.
  - intros H. unfold load_and_merge_data, read_warehouse.
    destruct (Dim_Clients_csv fs); simpl; [|reflexivity].
    destruct (Dim_Produits_csv fs); simpl; [|reflexivity].
    destruct (Dim_Temps_csv fs); simpl; [|reflexivity].
    destruct (Fact_Ventes_csv fs); simpl; [|reflexivity].
    exfalso. destruct H as [H|[H|[H|H]]]; discriminate.
Qed.




Lemma etl_tables_Some (fs : FileSystem) (w : Warehouse) :
  etl_tables to_numeric_cell to_datetime_cell fs = Some w ->
  exists e,
    extract to_numeric_cell to_datetime_cell fs = inr e
    /\ w = build_warehouse e
    /\ run_etl to_numeric_cell to_datetime_cell fs = (EtlDone, to_csv w fs).
Proof.
  unfold etl_tables, run_etl.
  destruct (extract _ _ fs) as [x|e]; [discriminate|].
  intros H. inversion H; subst. exists e. auto.
Qed.

Lemma NoDup_map_Some {A : Type} (l : list A) : NoDup l -> NoDup (map Some l).
Proof. apply NoDup_map_injective. intros x y E. congruence. Qed.

Lemma read_dim_temps_dates (t : list DimTemps) :
  map t_date (read_dim_temps t) = map Some (map t_date t).
Proof. unfold read_dim_temps. rewrite !map_map. reflexivity. Qed.

(** Every fact row finds its date exactly once in the time dimension. *)
Lemma fact_date_matches_once (e : Extracts) (f : DfVente) :
  In f (read_fact_ventes (fact_ventes (build_warehouse e))) ->
  List.length
    (filter (on_date f) (read_dim_temps (dim_temps (build_warehouse e))))
  = 1%nat.
Proof.
  intros Hf.
  assert (Hle : (List.length
                   (filter (on_date f)
                      (read_dim_temps (dim_temps (build_warehouse e))))
                 <= 1)%nat).
  { apply (filter_unique_key t_date _ (v_date f)).
    - rewrite read_dim_temps_dates. apply NoDup_map_Some, dim_temps_NoDup.
    - intros r. apply on_date_true. }
  assert (Hex : exists t,
             In t (read_dim_temps (dim_temps (build_warehouse e)))
             /\ on_date f t = true).
  { unfold read_fact_ventes in Hf. apply in_map_iff in Hf.
    destruct Hf as [r [<- Hr]].
    assert (Hd : In (v_date r)
                   (map t_date (dim_temps (build_warehouse e)))).
    { apply dim_temps_In. apply in_map, Hr. }
    apply in_map_iff in Hd. destruct Hd as [t [Et Ht]].
    exists (mkTemps (Some (t_date t)) (Some (annee t)) (Some (mois t))
              (Some (jour t)) (Some (trimestre t))).
    split.
    - unfold read_dim_temps. apply in_map_iff. exists t. auto.
    - unfold on_date. simpl. rewrite Et. apply key_eqb_true. reflexivity. }
  destruct Hex as [t [Ht Hon]].
  assert (Hin : In t (filter (on_date f)
                        (read_dim_temps (dim_temps (build_warehouse e)))))
    by (apply filter_In; auto).
  destruct (filter (on_date f) _) as [|x [|y l]]; simpl in *;
    [contradiction|reflexivity|lia].
Qed.

(** The fact part of a row of the cube is a row of the fact table, and its
    time part is what the merge on the date found. *)
Lemma df_cube_In (ventes : list DfVente) (clients : list DfClient)
    (produits : list DfProduit) (times : list DfTemps) (r : CubeRow) :
  In r (df_cube ventes clients produits times) ->
  In (vente r) ventes
  /\ match temps r with
     | Some t => In t times /\ on_date (vente r) t = true
     | None => forall t, In t times -> on_date (vente r) t = false
     end.
Proof.
  unfold df_cube. rewrite in_map_iff.
  intros [[[[f c] p] t] [<- H]]. simpl.
  apply merge_left_In in H. destruct H as [H Ht]. simpl in Ht.
  apply merge_left_In in H. destruct H as [H _].
  apply merge_left_In in H. destruct H as [H _].
  split; assumption.
Qed.

(** C10.  After a run that succeeds, the dates of Dim_Temps are exactly
    the dates of Fact_Ventes, each once; every fact row finds its date in
    exactly one row of the time dimension; and every row of the cube
    assembled from the files just written has a time part, with year,
    month, day and quarter not null. *)
Theorem time_dimension_covers_facts (fs : FileSystem) (w : Warehouse) :
  etl_tables to_numeric_cell to_datetime_cell fs = Some w ->
  NoDup (map t_date (dim_temps w))
  /\ (forall d, In d (map t_date (dim_temps w))
        <-> In d (map v_date (fact_ventes w)))
  /\ (forall f, In f (read_fact_ventes (fact_ventes w)) ->
        List.length (filter (on_date f) (read_dim_temps (dim_temps w)))
        = 1%nat)
  /\ exists cube,
       load_and_merge_data is_na
         (snd (run_etl to_numeric_cell to_datetime_cell fs))
       = Some cube
       /\ forall r, In r cube ->
            exists t,
              temps r = Some t
              /\ t_date t = v_date (vente r)
              /\ col_annee r <> None /\ col_mois r <> None
              /\ col_jour r <> None /\ col_trimestre r <> None.
Proof.
  intros H. destruct (etl_tables_Some fs w H) as [e [_ [-> Hrun]]].
  split; [apply dim_temps_NoDup|].
  split; [apply dim_temps_In|].
  split; [apply fact_date_matches_once|].
  rewrite Hrun. simpl. eexists. split; [reflexivity|].
  intros r Hr. apply df_cube_In in Hr. destruct Hr as [Hf Ht].
  pose proof (fact_date_matches_once e _ Hf) as H1.
  unfold col_annee, col_mois, col_jour, col_trimestre.
  destruct (temps r) as [t|].
  - destruct Ht as [Ht Hon]. exists t. split; [reflexivity|].
    split; [apply on_date_true, Hon|].
    unfold read_dim_temps in Ht. apply in_map_iff in Ht.
    destruct Ht as [t0 [<- _]]. simpl. repeat split; discriminate.
  - exfalso. rewrite filter_none in H1 by exact Ht. discriminate.
Qed.

End EtlFacts.

(* ================================================================== *)
(** ** Further properties of the cleaning and of the filter choices *)
(* ================================================================== *)

Section Dedup.
Context {A : Type}.
Variable eq_dec : forall x y : A, {x = y} + {x <> y}.

Lemma unique_from_seen (seen l2 l3 : list A) (x : A) :
  In x seen ->
  unique_from eq_dec seen (l2 ++ x :: l3) = unique_from eq_dec seen (l2 ++ l3).
Proof.
  revert seen. induction l2 as [|a l2 IH]; intros seen Hx; simpl.
  - destruct (in_dec eq_dec x seen); [reflexivity|contradiction].
  - destruct (in_dec eq_dec a seen); [apply IH, Hx|].
    f_equal. apply IH. simpl. auto.
Qed.

(** A second copy of a row changes nothing: the frame with the row twice
    and the frame with the row once have the same [drop_duplicates]. *)
Lemma drop_duplicates_second_copy (l1 l2 l3 : list A) (x : A) :
  drop_duplicates eq_dec (l1 ++ x :: l2 ++ x :: l3)
  = drop_duplicates eq_dec (l1 ++ x :: l2 ++ l3).
Proof.
  unfold drop_duplicates, unique. generalize (@nil A) as seen.
  induction l1 as [|a l1 IH]; intros seen; simpl.
  - destruct (in_dec eq_dec x seen) as [Hx|Hx].
    + apply unique_from_seen, Hx.
    + f_equal. apply unique_from_seen. simpl. auto.
  - destruct (in_dec eq_dec a seen); [apply IH|]. f_equal. apply IH.
Qed.

End Dedup.


(* ================================================================== *)
(** ** clean_quotes on one cell *)
(* ================================================================== *)

Lemma remove_quotes_app (a b : string) :
  remove_quotes (a ++ b) = (remove_quotes a ++ remove_quotes b)%string.
Proof.
  induction a as [|c a IH]; simpl; [reflexivity|].
  destruct (Ascii.eqb c dquote); simpl; rewrite IH; reflexivity.
Qed.

Lemma has_quote_String (c : ascii) (s : string) :
  has_quote (String c s) = Ascii.eqb dquote c || has_quote s.
Proof. reflexivity. Qed.

Lemma remove_quotes_no_quote (s : string) :
  has_quote (remove_quotes s) = false.
Proof.
  induction s as [|c s IH]; cbn [remove_quotes]; [reflexivity|].
  destruct (Ascii.eqb c dquote) eqn:E; [exact IH|].
  rewrite has_quote_String, Ascii.eqb_sym, E. exact IH.
Qed.

Lemma remove_quotes_fixed (s : string) :
  has_quote s = false -> remove_quotes s = s.
Proof.
  induction s as [|c s IH]; cbn [remove_quotes]; [reflexivity|].
  rewrite has_quote_String, Ascii.eqb_sym.
  destruct (Ascii.eqb c dquote); [discriminate|].
  intros H. rewrite (IH H). reflexivity.
Qed.

Lemma lstrip_fixed (c : ascii) (l : list ascii) :
  is_space c = false -> lstrip (c :: l) = c :: l.
Proof. intros H. simpl. rewrite H. reflexivity. Qed.

(** What [lstrip] leaves starts with a character that is no whitespace. *)
Lemma lstrip_head (l : list ascii) :
  match lstrip l with
  | [] => True
  | c :: _ => is_space c = false
  end.
Proof.
  induction l as [|c l IH]; simpl; [exact I|].
  destruct (is_space c) eqn:E; [exact IH|exact E].
Qed.

Lemma lstrip_suffix (l : list ascii) : exists p, l = p ++ lstrip l.
Proof.
  induction l as [|c l [p IH]]; simpl; [exists []; reflexivity|].
  destruct (is_space c).
  - exists (c :: p). simpl. rewrite <- IH. reflexivity.
  - exists []. reflexivity.
Qed.

(** Stripping the front of a text that ends with a character that is no
    whitespace keeps that end. *)
Lemma lstrip_keeps_last (l : list ascii) (c : ascii) :
  is_space c = false -> lstrip (l ++ [c]) = lstrip l ++ [c].
Proof.
  intros H. induction l as [|a l IH]; simpl; [rewrite H; reflexivity|].
  destruct (is_space a); [exact IH|reflexivity].
Qed.

Lemma strip_chars_ends (l : list ascii) :
  match strip_chars l with
  | [] => True
  | c :: l' => is_space c = false /\ is_space (last l' c) = false
  end.
Proof.
  unfold strip_chars. pose proof (lstrip_head l) as H1.
  destruct (lstrip l) as [|c m]; simpl; [exact I|].
  rewrite (lstrip_keeps_last (rev m) c H1), rev_app_distr. simpl.
  split; [exact H1|].
  pose proof (lstrip_head (rev m)) as H2.
  destruct (lstrip (rev m)) as [|d n]; simpl; [exact H1|].
  rewrite last_last. exact H2.
Qed.

Lemma strip_chars_fixed (l : list ascii) :
  match l with
  | [] => True
  | c :: l' => is_space c = false /\ is_space (last l' c) = false
  end ->
  strip_chars l = l.
Proof.
  unfold strip_chars. destruct l as [|c l]; [reflexivity|].
  intros [H1 H2]. rewrite (lstrip_fixed c l H1).
  destruct l as [|a l0] using rev_ind.
  - simpl. rewrite H1. reflexivity.
  - rewrite last_last in H2.
    change (c :: l0 ++ [a]) with ((c :: l0) ++ [a]).
    rewrite rev_app_distr.
    change (rev [a] ++ rev (c :: l0)) with (a :: rev (c :: l0)).
    rewrite (lstrip_fixed a _ H2).
    change (rev (a :: rev (c :: l0))) with (rev (rev (c :: l0)) ++ [a]).
    rewrite rev_involutive. reflexivity.
Qed.

Lemma strip_as_chars (s : string) :
  strip s = string_of_list_ascii (strip_chars (list_ascii_of_string s)).
Proof. reflexivity. Qed.

Lemma strip_no_outer_space (s : string) : outer_space (strip s) = false.
Proof.
  unfold outer_space. rewrite strip_as_chars.
  rewrite list_ascii_of_string_of_list_ascii.
  pose proof (strip_chars_ends (list_ascii_of_string s)) as H.
  destruct (strip_chars (list_ascii_of_string s)); [reflexivity|].
  destruct H as [H1 H2]. rewrite H1, H2. reflexivity.
Qed.

Lemma strip_fixed (s : string) : outer_space s = false -> strip s = s.
Proof.
  unfold outer_space. intros H. rewrite strip_as_chars.
  rewrite strip_chars_fixed; [apply string_of_list_ascii_of_string|].
  destruct (list_ascii_of_string s); [exact I|].
  apply orb_false_iff in H. exact H.
Qed.

Lemma existsb_lstrip (p : ascii -> bool) (l : list ascii) :
  existsb p l = false -> existsb p (lstrip l) = false.
Proof.
  induction l as [|c l IH]; simpl; [reflexivity|].
  intros H. apply orb_false_iff in H. destruct H as [H1 H2].
  destruct (is_space c); [apply IH, H2|]. simpl. rewrite H1. exact H2.
Qed.

Lemma existsb_rev_false {A : Type} (p : A -> bool) (l : list A) :
  existsb p l = false -> existsb p (rev l) = false.
Proof.
  induction l as [|c l IH]; simpl; [reflexivity|].
  intros H. apply orb_false_iff in H. destruct H as [H1 H2].
  rewrite existsb_app, (IH H2). simpl. rewrite H1. reflexivity.
Qed.

Lemma strip_no_quote (s : string) :
  has_quote s = false -> has_quote (strip s) = false.
Proof.
  unfold has_quote. rewrite strip_as_chars.
  rewrite list_ascii_of_string_of_list_ascii. unfold strip_chars.
  intros H. apply existsb_rev_false, existsb_lstrip.
  apply existsb_rev_false, existsb_lstrip, H.
Qed.

Lemma remove_quotes_dquote (s : string) :
  remove_quotes (String dquote s) = remove_quotes s.
Proof. reflexivity. Qed.

Lemma append_empty (s : string) : (s ++ "")%string = s.
Proof. induction s as [|c s IH]; simpl; [|rewrite IH]; reflexivity. Qed.

(** What [clean_quotes] leaves in a cell holds no double quote and neither
    starts nor ends with whitespace, and cleaning it again changes nothing;
    double quotes are removed wherever they stand in the field. *)
Lemma clean_cell_clean (c : RawCell) :
  has_quote (clean_cell c) = false
  /\ outer_space (clean_cell c) = false
  /\ clean_cell (Some (clean_cell c)) = clean_cell c
  /\ forall a b : string,
       clean_cell (Some (a ++ String dquote b)%string)
       = clean_cell (Some (a ++ b)%string).
Proof.
  unfold clean_cell.
  assert (Hq : has_quote (strip (remove_quotes (astype_str c))) = false)
    by apply strip_no_quote, remove_quotes_no_quote.
  assert (Hs : outer_space (strip (remove_quotes (astype_str c))) = false)
    by apply strip_no_outer_space.
  split; [exact Hq|]. split; [exact Hs|]. split.
  - unfold astype_str at 1. rewrite (remove_quotes_fixed _ Hq).
    apply strip_fixed, Hs.
  - intros a b. unfold astype_str.
    rewrite !remove_quotes_app, remove_quotes_dquote. reflexivity.
Qed.

(** A field written between double quotes comes out as the field itself
    when it holds no double quote and its first and last characters are
    one-byte characters other than whitespace. *)
Lemma clean_cell_quoted (s : string) :
  has_quote s = false -> outer_space s = false -> outer_one_byte s = true ->
  clean_cell (quoted s) = s.
Proof.
  intros Hq Hs _. unfold clean_cell, quoted, astype_str.
  rewrite remove_quotes_dquote, remove_quotes_app, remove_quotes_dquote.
  change (remove_quotes "") with "".
  rewrite append_empty, (remove_quotes_fixed s Hq).
  apply strip_fixed, Hs.
Qed.

(* ================================================================== *)
(** ** The warehouse, row by row *)
(* ================================================================== *)

Lemma mapM_cons_inr {A B : Type} (f : A -> Try B) (a : A) (l : list A)
    (l' : list B) :
  mapM f (a :: l) = inr l' ->
  exists b bs, f a = inr b /\ mapM f l = inr bs /\ l' = b :: bs.
Proof.
  simpl. destruct (f a) as [e|b]; simpl; [discriminate|].
  destruct (mapM f l) as [e|bs]; simpl; [discriminate|].
  intros H. inversion H. eauto.
Qed.

Section RowByRow.
Variable to_numeric_cell : string -> option (option Qc).
Variable to_datetime_cell : string -> option Timestamp.

Lemma clients_row_by_row (raw : list RawClient)
    (df : list (Client (option Qc) string)) :
  numeric_clients to_numeric_cell (clean_quotes_clients raw) = inr df ->
  dropna_clients df = dropna (map (cleaned_client to_numeric_cell) raw).
Proof.
  unfold numeric_clients, clean_quotes_clients. revert df.
  induction raw as [|r raw IH]; intros df H.
  - inversion H. reflexivity.
  - apply mapM_cons_inr in H. destruct H as [b [bs [Hb [Hbs ->]]]].
    simpl. rewrite (IH bs Hbs). clear IH Hbs. revert Hb.
    unfold numeric_client, clean_quotes_client, cleaned_client, to_numeric,
      bind, ret, raise.
    simpl.
    destruct (to_numeric_cell (clean_cell (client_id r))) as [[i|]|];
      intros Hb; inversion Hb; reflexivity.
Qed.

Lemma produits_row_by_row (raw : list RawProduit)
    (df : list (Produit (option Qc) string)) :
  numeric_produits to_numeric_cell (clean_quotes_produits raw) = inr df ->
  dropna_produits df = dropna (map (cleaned_produit to_numeric_cell) raw).
Proof.
  unfold numeric_produits, clean_quotes_produits. revert df.
  induction raw as [|r raw IH]; intros df H.
  - inversion H. reflexivity.
  - apply mapM_cons_inr in H. destruct H as [b [bs [Hb [Hbs ->]]]].
    simpl. rewrite (IH bs Hbs). clear IH Hbs. revert Hb.
    unfold numeric_produit, clean_quotes_produit, cleaned_produit,
      to_numeric, bind, ret, raise.
    simpl.
    destruct (to_numeric_cell (clean_cell (produit_id r))) as [[i|]|];
      destruct (to_numeric_cell (clean_cell (prix r))) as [[p|]|];
      intros Hb; inversion Hb; reflexivity.
Qed.

Lemma ventes_stage_app (l1 l2 : list (Vente (option Qc) string)) :
  dropna_ventes (dropna_date (to_datetime to_datetime_cell (l1 ++ l2)))
  = dropna_ventes (dropna_date (to_datetime to_datetime_cell l1))
    ++ dropna_ventes (dropna_date (to_datetime to_datetime_cell l2)).
Proof.
  unfold to_datetime, dropna_date, dropna_ventes.
  rewrite map_app, filter_app, flat_map_app. reflexivity.
Qed.

Lemma vente_row_by_row (r : RawVente) (b : Vente (option Qc) string) :
  numeric_vente to_numeric_cell (clean_quotes_vente r) = inr b ->
  dropna_ventes (dropna_date (to_datetime to_datetime_cell [b]))
  = dropna [cleaned_vente to_numeric_cell to_datetime_cell r].
Proof.
  unfold numeric_vente, clean_quotes_vente, cleaned_vente, to_numeric,
    bind, ret, raise, to_datetime, dropna_date, dropna_ventes.
  simpl.
  destruct (to_numeric_cell (clean_cell (vente_id r))) as [i|];
    [|discriminate].
  destruct (to_numeric_cell (clean_cell (v_client_id r))) as [c|];
    [|discriminate].
  destruct (to_numeric_cell (clean_cell (v_produit_id r))) as [p|];
    [|discriminate].
  destruct (to_numeric_cell (clean_cell (quantite r))) as [q|];
    [|discriminate].
  destruct (to_numeric_cell (clean_cell (montant r))) as [m|];
    [|discriminate].
  intros Hb. inversion Hb. subst b. clear Hb. simpl.
  destruct (to_datetime_cell (clean_cell (v_date r))) as [d|];
    destruct i, c, p, q, m; reflexivity.
Qed.

Lemma dropna_app {A : Type} (c1 c2 : list (option A)) :
  dropna (c1 ++ c2) = dropna c1 ++ dropna c2.
Proof.
  induction c1 as [|[a|] c1 IH]; simpl; [reflexivity| |exact IH].
  rewrite IH. reflexivity.
Qed.

Lemma ventes_row_by_row (raw : list RawVente)
    (df : list (Vente (option Qc) string)) :
  numeric_ventes to_numeric_cell (clean_quotes_ventes raw) = inr df ->
  dropna_ventes (dropna_date (to_datetime to_datetime_cell df))
  = dropna (map (cleaned_vente to_numeric_cell to_datetime_cell) raw).
Proof.
  unfold numeric_ventes, clean_quotes_ventes. revert df.
  induction raw as [|r raw IH]; intros df H.
  - inversion H. reflexivity.
  - apply mapM_cons_inr in H. destruct H as [b [bs [Hb [Hbs ->]]]].
    change (b :: bs) with ([b] ++ bs).
    change (map (cleaned_vente to_numeric_cell to_datetime_cell) (r :: raw))
      with ([cleaned_vente to_numeric_cell to_datetime_cell r]
            ++ map (cleaned_vente to_numeric_cell to_datetime_cell) raw).
    rewrite ventes_stage_app, dropna_app, (IH bs Hbs).
    rewrite (vente_row_by_row r b Hb). reflexivity.
Qed.

(** The frames that leave the try block, read off the extracts. *)
Lemma extract_row_by_row (fs : FileSystem) (e : Extracts) :
  extract to_numeric_cell to_datetime_cell fs = inr e ->
  exists rc rp rv,
    Clients_csv fs = Some rc /\ Produits_csv fs = Some rp
    /\ Ventes_csv fs = Some rv
    /\ dropna_clients (clients_df e)
       = dropna (map (cleaned_client to_numeric_cell) rc)
    /\ dropna_produits (produits_df e)
       = dropna (map (cleaned_produit to_numeric_cell) rp)
    /\ dropna_ventes (ventes_df e)
       = dropna (map (cleaned_vente to_numeric_cell to_datetime_cell) rv).
Proof.
  unfold extract.
  destruct (Clients_csv fs) as [rc|]; [|discriminate].
  destruct (Produits_csv fs) as [rp|]; [|discriminate].
  destruct (Ventes_csv fs) as [rv|]; [|discriminate]. simpl.
  destruct (numeric_clients _ _) as [x|c] eqn:Ec; [discriminate|]. simpl.
  destruct (numeric_produits _ _) as [x|p] eqn:Ep; [discriminate|]. simpl.
  destruct (numeric_ventes _ _) as [x|v] eqn:Ev; [discriminate|]. simpl.
  intros H. inversion H; subst. simpl.
  exists rc, rp, rv. repeat split.
  - apply clients_row_by_row, Ec.
  - apply produits_row_by_row, Ep.
  - apply ventes_row_by_row, Ev.
Qed.

Lemma warehouse_rows_of_extracts (fs : FileSystem) (w : Warehouse) :
  etl_tables to_numeric_cell to_datetime_cell fs = Some w ->
  exists rc rp rv,
    Clients_csv fs = Some rc /\ Produits_csv fs = Some rp
    /\ Ventes_csv fs = Some rv
    /\ dim_clients w
       = drop_duplicates DimClient_eq_dec
           (map replace_pays
              (dropna (map (cleaned_client to_numeric_cell) rc)))
    /\ dim_produits w
       = drop_duplicates DimProduit_eq_dec
           (dropna (map (cleaned_produit to_numeric_cell) rp))
    /\ fact_ventes w
       = drop_duplicates FactVente_eq_dec
           (dropna
              (map (cleaned_vente to_numeric_cell to_datetime_cell) rv)).
Proof.
  unfold etl_tables.
  destruct (extract to_numeric_cell to_datetime_cell fs) as [x|e] eqn:E;
    [discriminate|].
  intros H. inversion H; subst. clear H.
  destruct (extract_row_by_row fs e E)
    as [rc [rp [rv [H1 [H2 [H3 [Hc [Hp Hv]]]]]]]].
  exists rc, rp, rv. unfold build_warehouse. simpl.
  rewrite Hc, Hp, Hv. repeat split; assumption || reflexivity.
Qed.

(** After a run that succeeds, each table of the warehouse is read off its
    own extract, row by row: the rows whose cells are all read as values,
    in the order of the extract and without repetition (the country being
    normalised before repetitions are removed), and no other row. *)
Lemma warehouse_row_by_row (fs : FileSystem) (w : Warehouse) :
  etl_tables to_numeric_cell to_datetime_cell fs = Some w ->
  exists rc rp rv,
    Clients_csv fs = Some rc /\ Produits_csv fs = Some rp
    /\ Ventes_csv fs = Some rv
    /\ dim_clients w
       = drop_duplicates DimClient_eq_dec
           (map replace_pays
              (dropna (map (cleaned_client to_numeric_cell) rc)))
    /\ dim_produits w
       = drop_duplicates DimProduit_eq_dec
           (dropna (map (cleaned_produit to_numeric_cell) rp))
    /\ fact_ventes w
       = drop_duplicates FactVente_eq_dec
           (dropna
              (map (cleaned_vente to_numeric_cell to_datetime_cell) rv)).
Proof. apply warehouse_rows_of_extracts. Qed.


End RowByRow.

(** No table of the warehouse holds the same row twice. *)
Lemma warehouse_rows_distinct (e : Extracts) :
  NoDup (dim_clients (build_warehouse e))
  /\ NoDup (dim_produits (build_warehouse e))
  /\ NoDup (dim_temps (build_warehouse e))
  /\ NoDup (fact_ventes (build_warehouse e)).
Proof.
  repeat split; try apply unique_NoDup.
  apply (NoDup_map_inv t_date), dim_temps_NoDup.
Qed.

(** Two client rows that differ only in the spelling of a country alias
    end as one row of the client dimension. *)
Lemma alias_spellings_collapse (e : Extracts) (c1 c2 : DimClient) :
  In c1 (dropna_clients (clients_df e)) ->
  In c2 (dropna_clients (clients_df e)) ->
  client_id c1 = client_id c2 -> nom c1 = nom c2 -> ville c1 = ville c2 ->
  segment c1 = segment c2 ->
  In (pays c1) country_aliases -> In (pays c2) country_aliases ->
  replace_pays c1 = replace_pays c2
  /\ count_occ DimClient_eq_dec (dim_clients (build_warehouse e))
       (replace_pays c1) = 1%nat.
Proof.
  intros H1 H2 Ei En Ev Es A1 A2.
  assert (E : replace_pays c1 = replace_pays c2).
  { unfold replace_pays. rewrite Ei, En, Ev, Es.
    rewrite (replace_country_alias _ A1), (replace_country_alias _ A2).
    reflexivity. }
  split; [exact E|].
  assert (Hin : In (replace_pays c1) (dim_clients (build_warehouse e))).
  { unfold build_warehouse, drop_duplicates. simpl.
    apply unique_In, in_map, H1. }
  assert (Hnd : NoDup (dim_clients (build_warehouse e)))
    by apply unique_NoDup.
  apply (count_occ_In DimClient_eq_dec) in Hin.
  pose proof (proj1 (NoDup_count_occ DimClient_eq_dec _) Hnd
                (replace_pays c1)) as Hle.
  lia.
Qed.

(* ================================================================== *)
(** ** The grouped aggregates of main *)
(* ================================================================== *)

Lemma sum_col_cons (c : option Qc) (col : list (option Qc)) :
  sum_col (c :: col)
  = (match c with Some v => v | None => Q2Qc 0 end + sum_col col)%Qc.
Proof.
  unfold sum_col. destruct c as [v|]; simpl; [reflexivity|].
  rewrite Qcplus_0_l. reflexivity.
Qed.

(** The total over the rows that pass one of two tests no row passes
    together is the sum of the two totals. *)
Lemma sum_filter_disjoint (val : CubeRow -> option Qc)
    (p q : CubeRow -> bool) (f : list CubeRow) :
  (forall r, In r f -> p r && q r = false) ->
  sum_col (map val (filter (fun r => p r || q r) f))
  = (sum_col (map val (filter p f)) + sum_col (map val (filter q f)))%Qc.
Proof.
  induction f as [|r f IH]; intros H.
  - unfold sum_col. simpl. rewrite Qcplus_0_l. reflexivity.
  - assert (IH' := IH (fun x Hx => H x (or_intror Hx))).
    pose proof (H r (or_introl eq_refl)) as Hr. simpl.
    destruct (p r), (q r); simpl in *; try discriminate;
      rewrite ?sum_col_cons, IH'; ring.
Qed.

Section GroupBySpec.
Context {K : Type}.
Variable K_eq_dec : forall x y : K, {x = y} + {x <> y}.
Variable K_leb : K -> K -> bool.
Variable key : CubeRow -> option K.
Variable val : CubeRow -> option Qc.
Hypothesis K_leb_total : forall a b, K_leb a b = true \/ K_leb b a = true.
Hypothesis K_leb_trans :
  forall a b c, K_leb a b = true -> K_leb b c = true -> K_leb a c = true.

Lemma groupby_sum_pairs (f : list CubeRow) (k : K) (q : Qc) :
  In (k, q) (groupby_sum K_eq_dec K_leb key val f)
  <-> (exists r, In r f /\ key r = Some k)
      /\ q = group_total K_eq_dec key val k f.
Proof.
  unfold groupby_sum, group_total. rewrite in_map_iff. split.
  - intros [k' [E Hk]]. inversion E; subst. split; [|reflexivity].
    apply dispo_In in Hk. exact Hk.
  - intros [Hk ->]. exists k. split; [reflexivity|].
    apply dispo_In. exact Hk.
Qed.

Lemma groupby_sum_nil (f : list CubeRow) :
  groupby_sum K_eq_dec K_leb key val f = []
  <-> forall r, In r f -> key r = None.
Proof.
  split.
  - intros H r Hr. destruct (key r) as [k|] eqn:E; [|reflexivity].
    assert (Hin : In (k, group_total K_eq_dec key val k f)
                    (groupby_sum K_eq_dec K_leb key val f)).
    { apply groupby_sum_pairs. split; [eauto|reflexivity]. }
    rewrite H in Hin. destruct Hin.
  - intros H. destruct (groupby_sum K_eq_dec K_leb key val f)
      as [|[k q] g] eqn:E; [reflexivity|].
    assert (Hin : In (k, q) (groupby_sum K_eq_dec K_leb key val f))
      by (rewrite E; simpl; auto).
    apply groupby_sum_pairs in Hin. destruct Hin as [[r [Hr Hk]] _].
    rewrite (H r Hr) in Hk. discriminate.
Qed.

(** The totals of the groups of a list of distinct keys add up to the
    total over the rows whose key is in the list. *)
Lemma group_totals_add_up (ks : list K) (f : list CubeRow) :
  NoDup ks ->
  fold_right Qcplus (Q2Qc 0)
    (map (fun k => sum_col (map val (group_rows K_eq_dec key k f))) ks)
  = sum_col (map val (filter (fun r => isin K_eq_dec (key r) ks) f)).
Proof.
  induction 1 as [|k ks Hk Hnd IH]; simpl.
  - rewrite filter_none; [reflexivity|]. intros r _. apply isin_nil.
  - rewrite IH. unfold group_rows.
    rewrite <- sum_filter_disjoint.
    + f_equal. f_equal. apply filter_ext. intros r.
      unfold isin. destruct (key r) as [v|]; [|reflexivity].
      simpl. destruct (K_eq_dec k v) as [->|Hne].
      * destruct (in_dec K_eq_dec v ks); reflexivity.
      * destruct (in_dec K_eq_dec v ks) as [Hv|Hv]; simpl.
        -- destruct (in_dec K_eq_dec v (k :: ks)) as [_|N];
             [reflexivity|]. exfalso. apply N. simpl. auto.
        -- destruct (in_dec K_eq_dec v (k :: ks)) as [[E|Hv']|_];
             [congruence|contradiction|reflexivity].
    + intros r _. unfold isin. destruct (key r) as [v|]; [|reflexivity].
      simpl. destruct (K_eq_dec k v) as [->|Hne]; [|reflexivity].
      destruct (in_dec K_eq_dec v ks); [contradiction|reflexivity].
Qed.

Lemma groupby_sum_is (f : list CubeRow) :
  is_groupby_sum K_eq_dec (fun a b => K_leb a b = true /\ a <> b) key val f
    (groupby_sum K_eq_dec K_leb key val f).
Proof.
  split; [|split; [|split]].
  - rewrite groupby_sum_keys.
    apply sort_by_strict; auto using unique_NoDup.
  - intros k q. apply groupby_sum_pairs.
  - apply groupby_sum_nil.
  - unfold sum_values, groupby_sum. rewrite map_map. simpl.
    rewrite group_totals_add_up
      by (apply sort_by_NoDup, unique_NoDup).
    f_equal. f_equal. apply filter_ext_in. intros r Hr.
    apply isin_dispo, Hr.
Qed.

End GroupBySpec.

Lemma is_groupby_sum_weaken {K : Type}
    (K_eq_dec : forall x y : K, {x = y} + {x <> y}) (lt lt' : K -> K -> Prop)
    (key : CubeRow -> option K) (val : CubeRow -> option Qc)
    (f : list CubeRow) (g : list (K * Qc)) :
  (forall a b, lt a b -> lt' a b) ->
  is_groupby_sum K_eq_dec lt key val f g ->
  is_groupby_sum K_eq_dec lt' key val f g.
Proof.
  intros H [H1 H2]. split; [|exact H2].
  eapply StronglySorted_weaken; [|exact H1]. intros a b _ _. apply H.
Qed.

Lemma Z_leb_total (a b : Z) : Z.leb a b = true \/ Z.leb b a = true.
Proof. rewrite !Z.leb_le. lia. Qed.

Lemma Z_leb_trans (a b c : Z) :
  Z.leb a b = true -> Z.leb b c = true -> Z.leb a c = true.
Proof. rewrite !Z.leb_le. lia. Qed.

(** The three plain group-bys of main: sales by country and by segment
    come out in increasing name order, sales by month in increasing
    numeric order of the month; each holds one row per value present, with
    the total amount of its rows; each is empty exactly when no row has a
    value in that column; and the amounts of an aggregate add up to the
    total amount of the rows that have a value in that column, rows with a
    null country, month or segment being left out. *)
Lemma plain_groupbys_spec (f : list CubeRow) :
  is_groupby_sum string_dec (fun a b => String.ltb a b = true) col_pays
    col_montant f (ventes_par_pays f)
  /\ is_groupby_sum Z.eq_dec Z.lt col_mois col_montant f (ventes_par_mois f)
  /\ is_groupby_sum string_dec (fun a b => String.ltb a b = true) col_segment
       col_montant f (ventes_par_segment f).
Proof.
  split; [|split].
  - eapply is_groupby_sum_weaken;
      [|apply (groupby_sum_is string_dec String.leb);
        [apply String.leb_total|apply String_leb_trans]].
    intros a b [H1 H2]. apply String_ltb_of_leb; assumption.
  - eapply is_groupby_sum_weaken;
      [|apply (groupby_sum_is Z.eq_dec Z.leb);
        [apply Z_leb_total|apply Z_leb_trans]].
    intros a b [H1 H2]. apply Z.leb_le in H1. lia.
  - eapply is_groupby_sum_weaken;
      [|apply (groupby_sum_is string_dec String.leb);
        [apply String.leb_total|apply String_leb_trans]].
    intros a b [H1 H2]. apply String_ltb_of_leb; assumption.
Qed.

(** Whatever is selected, the sales by country of the filtered rows add up
    to the total sales shown beside them: a row that passes the country
    filter has a country. *)
Lemma ventes_par_pays_adds_up (df : list CubeRow) (ys : list Z)
    (cs cats : list string) :
  sum_values (ventes_par_pays (filtered_df df ys cs cats))
  = total_ventes (filtered_df df ys cs cats).
Proof.
  destruct (groupby_sum_is string_dec String.leb col_pays col_montant
              String.leb_total String_leb_trans
              (filtered_df df ys cs cats)) as [_ [_ [_ H]]].
  unfold ventes_par_pays, total_ventes. rewrite H. f_equal. f_equal.
  apply filter_fixed. intros r Hr. unfold filtered_df in Hr.
  apply filter_In in Hr. destruct Hr as [_ Hr].
  apply andb_prop in Hr. destruct Hr as [Hr _].
  apply andb_prop in Hr. destruct Hr as [_ Hr].
  unfold mask_pays in Hr. destruct (col_pays r); [reflexivity|discriminate].
Qed.

Section TopN.
Variable key : CubeRow -> option string.
Variable val : CubeRow -> option Qc.
Variable n : nat.

(** [groupby(key)[val].sum().reset_index().sort_values(val,
    ascending=False).head(n)] *)
Let top (f : list CubeRow) : list (string * Qc) :=
  firstn n (sort_values_desc (groupby_sum string_dec String.leb key val f)).

Lemma groups_sorted_by_name (f : list CubeRow) :
  StronglySorted (fun a b => String.ltb (fst a) (fst b) = true)
    (groupby_sum string_dec String.leb key val f).
Proof.
  apply (proj2 (StronglySorted_map (fun a b => String.ltb a b = true) fst _)).
  rewrite groupby_sum_keys.
  eapply StronglySorted_weaken;
    [|apply sort_by_strict;
      [apply String.leb_total|apply String_leb_trans|apply unique_NoDup]].
  intros a b _ _ [H1 H2]. apply String_ltb_of_leb; assumption.
Qed.

Lemma sort_values_desc_sorted (f : list CubeRow) :
  StronglySorted top_order
    (sort_values_desc (groupby_sum string_dec String.leb key val f)).
Proof.
  unfold sort_values_desc.
  eapply StronglySorted_weaken;
    [|apply (sort_by_stable (fun a b : string * Qc => Qc_leb (snd b) (snd a)))
        with (S := fun a b => String.ltb (fst a) (fst b) = true)].
  - intros a b _ _ [H1 H2]. unfold top_order.
    apply Qc_leb_le in H1.
    destruct (Qcle_lt_or_eq _ _ H1) as [Hlt|Heq]; [left; exact Hlt|].
    right. split; [symmetry; exact Heq|].
    apply H2. apply Qc_leb_le. rewrite Heq. apply Qcle_refl.
  - intros a b. apply Qc_leb_total.
  - intros a b c H1 H2. eapply Qc_leb_trans; eassumption.
  - apply groups_sorted_by_name.
Qed.

Lemma top_order_ge (a b : string * Qc) : top_order a b -> (snd b <= snd a)%Qc.
Proof.
  intros [H|[H _]]; [apply Qclt_le_weak, H|]. rewrite H. apply Qcle_refl.
Qed.

Lemma top_n_spec (f : list CubeRow) :
  (forall k q, In (k, q) (top f) ->
     (exists r, In r f /\ key r = Some k)
     /\ q = group_total string_dec key val k f)
  /\ NoDup (map fst (top f))
  /\ StronglySorted top_order (top f)
  /\ List.length (top f)
     = Nat.min n (List.length (unique string_dec (dropna (map key f))))
  /\ (forall k q k' q',
        In (k, q) (top f) ->
        (exists r, In r f /\ key r = Some k') ->
        q' = group_total string_dec key val k' f ->
        ~ In (k', q') (top f) -> (q' <= q)%Qc)
  /\ forall f', Permutation f f' -> top f' = top f.
Proof.
  unfold top.
  set (g := groupby_sum string_dec String.leb key val f).
  pose proof (sort_values_desc_sorted f) as Hs. fold g in Hs.
  split; [|split; [|split; [|split; [|split]]]].
  - intros k q H. apply firstn_In in H. unfold sort_values_desc in H.
    apply sort_by_In in H.
    apply (groupby_sum_pairs string_dec String.leb key val) in H. exact H.
  - rewrite <- firstn_map. apply NoDup_firstn.
    eapply Permutation_NoDup;
      [apply Permutation_sym, Permutation_map, sort_by_Permutation|].
    apply groupby_sum_NoDup.
  - apply StronglySorted_firstn, Hs.
  - rewrite length_firstn. unfold sort_values_desc.
    rewrite sort_by_length. unfold g.
    rewrite groupby_sum_length. reflexivity.
  - intros k q k' q' Hin Hk' Hq' Hout.
    assert (Hall : In (k', q') (sort_values_desc g)).
    { unfold sort_values_desc. apply sort_by_In.
      apply (groupby_sum_pairs string_dec String.leb key val). auto. }
    rewrite <- (firstn_skipn n (sort_values_desc g)) in Hall, Hs.
    apply in_app_or in Hall. destruct Hall as [Hall|Hall]; [contradiction|].
    apply (top_order_ge (k, q) (k', q')).
    apply (StronglySorted_app_order _ _ _ Hs); assumption.
  - intros f' H. unfold g.
    rewrite (groupby_sum_Permutation string_dec String.leb key val
               String.leb_total String_leb_trans String.leb_antisym f f' H).
    reflexivity.
Qed.

End TopN.

(** The top clients: total amount by client name over the rows that have
    one, at most 5 rows and as many as there are names when these are
    fewer, by decreasing total and by increasing name among equal totals;
    no client left out has a larger total than a client kept; and the
    table is the same for any reordering of the rows. *)
Lemma top_clients_spec (f : list CubeRow) :
  (forall k q, In (k, q) (top_clients f) ->
     (exists r, In r f /\ col_nom r = Some k)
     /\ q = group_total string_dec col_nom col_montant k f)
  /\ NoDup (map fst (top_clients f))
  /\ StronglySorted top_order (top_clients f)
  /\ List.length (top_clients f)
     = Nat.min 5 (List.length (unique string_dec (dropna (map col_nom f))))
  /\ (forall k q k' q',
        In (k, q) (top_clients f) ->
        (exists r, In r f /\ col_nom r = Some k') ->
        q' = group_total string_dec col_nom col_montant k' f ->
        ~ In (k', q') (top_clients f) -> (q' <= q)%Qc)
  /\ forall f', Permutation f f' -> top_clients f' = top_clients f.
Proof. exact (top_n_spec col_nom col_montant 5 f). Qed.

(** The products kept by the top-products aggregate are the most sold: a
    product left out has no larger quantity than a product kept. *)
Lemma top_produits_keeps_largest (f : list CubeRow) (k k' : string)
    (q q' : Qc) :
  In (k, q) (top_produits f) ->
  (exists r, In r f /\ col_nom_produit r = Some k') ->
  q' = group_total string_dec col_nom_produit col_quantite k' f ->
  ~ In (k', q') (top_produits f) ->
  (q' <= q)%Qc.
Proof.
  apply (top_n_spec col_nom_produit col_quantite 10 f).
Qed.

(* ================================================================== *)
(** ** The filters and the KPIs of main *)
(* ================================================================== *)

(** The rows that pass the filters are the rows of the cube whose year,
    country and category are all present and selected: a row with a null
    year, country or category passes under no selection.  Filtering the
    result again with the same selection changes nothing, and a larger
    selection keeps at least the same rows. *)
Lemma filtered_df_spec (df : list CubeRow) (ys : list Z)
    (cs cats : list string) :
  (forall r, In r (filtered_df df ys cs cats)
     <-> In r df
         /\ (exists y, col_annee r = Some y /\ In y ys)
         /\ (exists c, col_pays r = Some c /\ In c cs)
         /\ (exists k, col_categorie r = Some k /\ In k cats))
  /\ filtered_df (filtered_df df ys cs cats) ys cs cats
     = filtered_df df ys cs cats
  /\ forall (ys' : list Z) (cs' cats' : list string),
       incl ys ys' -> incl cs cs' -> incl cats cats' ->
       incl (filtered_df df ys cs cats) (filtered_df df ys' cs' cats').
Proof.
  assert (Hin : forall (d : list CubeRow) (a : list Z) (b c : list string) r,
            In r (filtered_df d a b c)
            <-> In r d
                /\ (exists y, col_annee r = Some y /\ In y a)
                /\ (exists x, col_pays r = Some x /\ In x b)
                /\ (exists k, col_categorie r = Some k /\ In k c)).
  { intros d a b c r. unfold filtered_df. rewrite filter_In, !andb_true_iff.
    unfold mask_annee, mask_pays, mask_categorie. rewrite !isin_true.
    tauto. }
  split; [apply Hin|]. split.
  - unfold filtered_df at 1. apply filter_fixed. intros r Hr.
    unfold filtered_df in Hr. apply filter_In in Hr. apply Hr.
  - intros ys' cs' cats' Hy Hc Hk r Hr. apply Hin in Hr. apply Hin.
    destruct Hr as [H0 [[y [H1 H1']] [[c [H2 H2']] [k [H3 H3']]]]].
    split; [exact H0|]. repeat split; eauto.
Qed.

Lemma isin_app {A : Type} (eq_dec : forall x y : A, {x = y} + {x <> y})
    (c : option A) (l1 l2 : list A) :
  isin eq_dec c (l1 ++ l2) = isin eq_dec c l1 || isin eq_dec c l2.
Proof.
  unfold isin. destruct c as [v|]; [|reflexivity].
  destruct (in_dec eq_dec v (l1 ++ l2)) as [H|H];
    destruct (in_dec eq_dec v l1) as [H1|H1];
    destruct (in_dec eq_dec v l2) as [H2|H2]; try reflexivity; exfalso.
  - apply in_app_or in H. tauto.
  - apply H, in_or_app. auto.
  - apply H, in_or_app. auto.
  - apply H, in_or_app. auto.
Qed.

Lemma isin_disjoint {A : Type} (eq_dec : forall x y : A, {x = y} + {x <> y})
    (c : option A) (l1 l2 : list A) :
  (forall x, In x l1 -> ~ In x l2) ->
  isin eq_dec c l1 && isin eq_dec c l2 = false.
Proof.
  intros H. unfold isin. destruct c as [v|]; [|reflexivity].
  destruct (in_dec eq_dec v l1) as [H1|H1]; [|reflexivity].
  destruct (in_dec eq_dec v l2) as [H2|H2]; [|reflexivity].
  exfalso. apply (H v H1 H2).
Qed.

(** Two selections of years with no year in common split the totals: the
    total sales and the total quantity for the two selections together
    are the sums of the totals for each. *)
Lemma totals_split_by_year (df : list CubeRow) (ys1 ys2 : list Z)
    (cs cats : list string) :
  (forall y, In y ys1 -> ~ In y ys2) ->
  total_ventes (filtered_df df (ys1 ++ ys2) cs cats)
  = (total_ventes (filtered_df df ys1 cs cats)
     + total_ventes (filtered_df df ys2 cs cats))%Qc
  /\ total_quantite (filtered_df df (ys1 ++ ys2) cs cats)
     = (total_quantite (filtered_df df ys1 cs cats)
        + total_quantite (filtered_df df ys2 cs cats))%Qc.
Proof.
  intros H.
  assert (E : filtered_df df (ys1 ++ ys2) cs cats
              = filter
                  (fun r =>
                     (mask_annee ys1 r && mask_pays cs r
                      && mask_categorie cats r)
                     || (mask_annee ys2 r && mask_pays cs r
                         && mask_categorie cats r))
                  df).
  { unfold filtered_df. apply filter_ext. intros r.
    unfold mask_annee. rewrite isin_app.
    destruct (isin Z.eq_dec (col_annee r) ys1),
      (isin Z.eq_dec (col_annee r) ys2), (mask_pays cs r),
      (mask_categorie cats r); reflexivity. }
  assert (D : forall r, In r df ->
            (mask_annee ys1 r && mask_pays cs r && mask_categorie cats r)
            && (mask_annee ys2 r && mask_pays cs r && mask_categorie cats r)
            = false).
  { intros r _. unfold mask_annee.
    pose proof (isin_disjoint Z.eq_dec (col_annee r) ys1 ys2 H) as Hd.
    destruct (isin Z.eq_dec (col_annee r) ys1),
      (isin Z.eq_dec (col_annee r) ys2); simpl in *;
      try discriminate; try reflexivity.
    apply andb_false_r. }
  unfold total_ventes, total_quantite. rewrite E. split.
  - apply (sum_filter_disjoint col_montant _ _ df D).
  - apply (sum_filter_disjoint col_quantite _ _ df D).
Qed.

Lemma sum_Qc_Permutation (l1 l2 : list Qc) :
  Permutation l1 l2 ->
  fold_right Qcplus (Q2Qc 0) l1 = fold_right Qcplus (Q2Qc 0) l2.
Proof.
  induction 1 as [|x ? ? ? IH|x y ?|? ? ? ? IH1 ? IH2]; simpl.
  - reflexivity.
  - rewrite IH. reflexivity.
  - rewrite !Qcplus_assoc, (Qcplus_comm y x). reflexivity.
  - congruence.
Qed.

Lemma mean_col_Permutation (c1 c2 : list (option Qc)) :
  Permutation c1 c2 -> mean_col c1 = mean_col c2.
Proof.
  intros H. apply dropna_Permutation in H. unfold mean_col.
  destruct (dropna c1) as [|x l1] eqn:E1, (dropna c2) as [|y l2] eqn:E2.
  - reflexivity.
  - apply Permutation_nil in H. discriminate.
  - apply Permutation_sym, Permutation_nil in H. discriminate.
  - rewrite (sum_Qc_Permutation _ _ H), (Permutation_length H).
    reflexivity.
Qed.

Section ChoicesOrder.
Context {K : Type}.
Variable K_eq_dec : forall x y : K, {x = y} + {x <> y}.
Variable K_leb : K -> K -> bool.
Variable col : CubeRow -> option K.
Hypothesis K_leb_total : forall a b, K_leb a b = true \/ K_leb b a = true.
Hypothesis K_leb_trans :
  forall a b c, K_leb a b = true -> K_leb b c = true -> K_leb a c = true.
Hypothesis K_leb_antisym :
  forall a b, K_leb a b = true -> K_leb b a = true -> a = b.

Lemma dispo_Permutation (df df' : list CubeRow) :
  Permutation df df' ->
  sort_by K_leb (unique K_eq_dec (dropna (map col df)))
  = sort_by K_leb (unique K_eq_dec (dropna (map col df'))).
Proof.
  intros H.
  apply (strictly_sorted_unique (fun a b => K_leb a b = true /\ a <> b)).
  - intros a b [H1 N] [H2 _]. apply N, K_leb_antisym; assumption.
  - apply sort_by_strict; auto using unique_NoDup.
  - apply sort_by_strict; auto using unique_NoDup.
  - intros k. rewrite !sort_by_In, !unique_In, !dropna_In.
    split; apply Permutation_in, Permutation_map;
      [exact H|apply Permutation_sym, H].
Qed.

End ChoicesOrder.

Lemma Z_leb_antisym (a b : Z) :
  Z.leb a b = true -> Z.leb b a = true -> a = b.
Proof. rewrite !Z.leb_le. lia. Qed.

(** What main computes does not depend on the order of the rows of the
    cube: two cubes with the same rows in another order offer the same
    choices and, for every selection, give the same three KPIs and the
    same four aggregates by country, month, segment and client. *)
Lemma row_order_is_irrelevant (df df' : list CubeRow) :
  Permutation df df' ->
  annees_dispo df = annees_dispo df'
  /\ pays_dispo df = pays_dispo df'
  /\ categories_dispo df = categories_dispo df'
  /\ forall (ys : list Z) (cs cats : list string),
       total_ventes (filtered_df df ys cs cats)
       = total_ventes (filtered_df df' ys cs cats)
       /\ total_quantite (filtered_df df ys cs cats)
          = total_quantite (filtered_df df' ys cs cats)
       /\ prix_moyen (filtered_df df ys cs cats)
          = prix_moyen (filtered_df df' ys cs cats)
       /\ ventes_par_pays (filtered_df df ys cs cats)
          = ventes_par_pays (filtered_df df' ys cs cats)
       /\ ventes_par_mois (filtered_df df ys cs cats)
          = ventes_par_mois (filtered_df df' ys cs cats)
       /\ ventes_par_segment (filtered_df df ys cs cats)
          = ventes_par_segment (filtered_df df' ys cs cats)
       /\ top_clients (filtered_df df ys cs cats)
          = top_clients (filtered_df df' ys cs cats).
Proof.
  intros H.
  split; [exact (dispo_Permutation Z.eq_dec Z.leb col_annee Z_leb_total
                   Z_leb_trans Z_leb_antisym df df' H)|].
  split; [exact (dispo_Permutation string_dec String.leb col_pays
                   String.leb_total String_leb_trans String.leb_antisym
                   df df' H)|].
  split; [exact (dispo_Permutation string_dec String.leb col_categorie
                   String.leb_total String_leb_trans String.leb_antisym
                   df df' H)|].
  intros ys cs cats.
  assert (P : Permutation (filtered_df df ys cs cats)
                (filtered_df df' ys cs cats))
    by (apply filter_Permutation, H).
  split; [apply sum_col_Permutation, Permutation_map, P|].
  split; [apply sum_col_Permutation, Permutation_map, P|].
  split; [apply mean_col_Permutation, Permutation_map, P|].
  split; [exact (groupby_sum_Permutation string_dec String.leb col_pays
                   col_montant String.leb_total String_leb_trans
                   String.leb_antisym _ _ P)|].
  split; [exact (groupby_sum_Permutation Z.eq_dec Z.leb col_mois col_montant
                   Z_leb_total Z_leb_trans Z_leb_antisym _ _ P)|].
  split; [exact (groupby_sum_Permutation string_dec String.leb col_segment
                   col_montant String.leb_total String_leb_trans
                   String.leb_antisym _ _ P)|].
  unfold top_clients.
  rewrite (groupby_sum_Permutation string_dec String.leb col_nom col_montant
             String.leb_total String_leb_trans String.leb_antisym _ _ P).
  reflexivity.
Qed.

(* ================================================================== *)
(** ** From the run of the ETL to the cube *)
(* ================================================================== *)

(** With at most one row per key in each dimension the cube is one lookup
    per fact row. *)
Lemma df_cube_lookup (ventes : list DfVente) (clients : list DfClient)
    (produits : list DfProduit) (times : list DfTemps) :
  NoDup (map client_id clients) ->
  NoDup (map produit_id produits) ->
  NoDup (map t_date times) ->
  df_cube ventes clients produits times
  = map (cube_row_of clients produits times) ventes.
Proof.
  intros Hc Hp Ht. unfold df_cube.
  rewrite (merge_left_lookup on_client_id).
  2:{ intros l _.
      apply (filter_unique_key client_id _ (v_client_id l)); [assumption|].
      intros r. apply on_client_id_true. }
  rewrite (merge_left_lookup (fun r p => on_produit_id (fst r) p)).
  2:{ intros l _.
      apply (filter_unique_key produit_id _ (v_produit_id (fst l)));
        [assumption|].
      intros r. apply on_produit_id_true. }
  rewrite (merge_left_lookup (fun r t => on_date (fst (fst r)) t)).
  2:{ intros l _.
      apply (filter_unique_key t_date _ (v_date (fst (fst l))));
        [assumption|].
      intros r. apply on_date_true. }
  rewrite !map_map. reflexivity.
Qed.

(** The client part of a row of the cube is what the merge on client_id
    found for its fact part. *)
Lemma df_cube_client_In (ventes : list DfVente) (clients : list DfClient)
    (produits : list DfProduit) (times : list DfTemps) (r : CubeRow) :
  In r (df_cube ventes clients produits times) ->
  match client r with
  | Some c => In c clients /\ on_client_id (vente r) c = true
  | None => forall c, In c clients -> on_client_id (vente r) c = false
  end.
Proof.
  unfold df_cube. rewrite in_map_iff.
  intros [[[[f c] p] t] [<- H]]. simpl.
  apply merge_left_In in H. destruct H as [H _].
  apply merge_left_In in H. destruct H as [H _].
  apply merge_left_In in H. destruct H as [_ H]. exact H.
Qed.

(** Every fact row is the fact part of a row of the cube. *)
Lemma df_cube_keeps (ventes : list DfVente) (clients : list DfClient)
    (produits : list DfProduit) (times : list DfTemps) (f : DfVente) :
  In f ventes ->
  exists r, In r (df_cube ventes clients produits times) /\ vente r = f.
Proof.
  intros Hf. unfold df_cube.
  destruct (merge_left_keeps on_client_id ventes clients f Hf) as [c Hc].
  destruct (merge_left_keeps (fun r p => on_produit_id (fst r) p) _
              produits _ Hc) as [p Hp].
  destruct (merge_left_keeps (fun r t => on_date (fst (fst r)) t) _
              times _ Hp) as [t Ht].
  exists (mkCubeRow f c p t). split; [|reflexivity].
  apply in_map_iff. exists (f, c, p, t). split; [reflexivity|assumption].
Qed.

Section RunThenLoad.
Variable to_numeric_cell : string -> option (option Qc).
Variable to_datetime_cell : string -> option Timestamp.
Variable is_na : string -> bool.

Lemma read_dim_clients_ids (t : list DimClient) :
  map client_id (read_dim_clients is_na t) = map Some (map client_id t).
Proof. unfold read_dim_clients. rewrite !map_map. reflexivity. Qed.

Lemma read_dim_produits_ids (t : list DimProduit) :
  map produit_id (read_dim_produits is_na t) = map Some (map produit_id t).
Proof. unfold read_dim_produits. rewrite !map_map. reflexivity. Qed.

(** After a run that succeeds the dashboard always gets a cube.  Every
    sale of Fact_Ventes is in it and every row of it carries a sale of
    Fact_Ventes, with its amount and its quantity.  When no client_id and
    no produit_id occurs twice in the dimensions written, the cube holds
    each sale once, in the order of Fact_Ventes, and the total of its
    amounts is the total of the amounts of Fact_Ventes. *)
Lemma cube_after_run (fs : FileSystem) (w : Warehouse) :
  etl_tables to_numeric_cell to_datetime_cell fs = Some w ->
  exists cube,
    load_and_merge_data is_na
      (snd (run_etl to_numeric_cell to_datetime_cell fs))
    = Some cube
    /\ (forall f, In f (read_fact_ventes (fact_ventes w)) ->
          exists r, In r cube /\ vente r = f)
    /\ (forall r, In r cube ->
          In (vente r) (read_fact_ventes (fact_ventes w))
          /\ col_montant r <> None /\ col_quantite r <> None)
    /\ (NoDup (map client_id (dim_clients w)) ->
        NoDup (map produit_id (dim_produits w)) ->
        map vente cube = read_fact_ventes (fact_ventes w)
        /\ total_ventes cube
           = sum_col (map montant (read_fact_ventes (fact_ventes w)))
        /\ total_quantite cube
           = sum_col (map quantite (read_fact_ventes (fact_ventes w)))).
Proof.
  intros H. destruct (etl_tables_Some _ _ fs w H) as [e [_ [-> Hrun]]].
  rewrite Hrun. simpl. eexists. split; [reflexivity|].
  split; [|split].
  - intros f Hf. apply df_cube_keeps, Hf.
  - intros r Hr. apply df_cube_In in Hr. destruct Hr as [Hf _].
    split; [exact Hf|].
    unfold col_montant, col_quantite, read_fact_ventes in *.
    apply in_map_iff in Hf. destruct Hf as [f [<- _]]. simpl.
    split; discriminate.
  - intros Hc Hp. rewrite df_cube_lookup.
    + unfold total_ventes, total_quantite. rewrite !map_map.
      split; [apply map_id|]. split; reflexivity.
    + rewrite read_dim_clients_ids. apply NoDup_map_Some, Hc.
    + rewrite read_dim_produits_ids. apply NoDup_map_Some, Hp.
    + rewrite read_dim_temps_dates. apply NoDup_map_Some, dim_temps_NoDup.
Qed.

End RunThenLoad.

Section NaMarkers.
Variable is_na : string -> bool.

(** The country of a row of the cube is null in two cases only: no row of
    the client dimension has the client_id of the sale, or the country
    written in the client dimension is an NA marker of [read_csv]; in
    both cases the row passes the filters under no selection. *)
Lemma null_country_rows (clients : list DimClient) (ventes : list DfVente)
    (produits : list DfProduit) (times : list DfTemps) (r : CubeRow) :
  In r (df_cube ventes (read_dim_clients is_na clients) produits times) ->
  ((client r = None
    /\ (forall d, In d clients -> v_client_id (vente r) <> Some (client_id d))
    /\ col_pays r = None)
   \/ exists d,
        In d clients /\ v_client_id (vente r) = Some (client_id d)
        /\ col_pays r = (if is_na (pays d) then None else Some (pays d)))
  /\ (col_pays r = None ->
      forall (cube : list CubeRow) (ys : list Z) (cs cats : list string),
        ~ In r (filtered_df cube ys cs cats)).
Proof.
  intros Hr. split.
  - apply df_cube_client_In in Hr. unfold col_pays.
    destruct (client r) as [c|].
    + right. destruct Hr as [Hc Hon]. unfold read_dim_clients in Hc.
      apply in_map_iff in Hc. destruct Hc as [d [<- Hd]].
      exists d. apply on_client_id_true in Hon. simpl in Hon.
      split; [exact Hd|]. split; [symmetry; exact Hon|]. reflexivity.
    + left. split; [reflexivity|]. split; [|reflexivity].
      intros d Hd E.
      assert (Hin : In (mkClient (Some (client_id d)) (read_text is_na (nom d))
                          (read_text is_na (ville d))
                          (read_text is_na (pays d))
                          (read_text is_na (segment d)))
                      (read_dim_clients is_na clients)).
      { unfold read_dim_clients. apply in_map_iff. exists d. auto. }
      specialize (Hr _ Hin). unfold on_client_id in Hr. simpl in Hr.
      rewrite E in Hr.
      assert (Ht : key_eqb Qc_eq_dec (Some (client_id d))
                     (Some (client_id d)) = true)
        by (apply key_eqb_true; reflexivity).
      rewrite Ht in Hr. discriminate.
  - intros Hnull cube ys cs cats Hin. unfold filtered_df in Hin.
    apply filter_In in Hin. destruct Hin as [_ Hin].
    apply andb_prop in Hin. destruct Hin as [Hin _].
    apply andb_prop in Hin. destruct Hin as [_ Hin].
    unfold mask_pays in Hin. rewrite Hnull in Hin. discriminate.
Qed.

End NaMarkers.

(* ================================================================== *)
(** ** The text of the warehouse *)
(* ================================================================== *)

Lemma clean_cell_clean_text (c : RawCell) : clean_text (clean_cell c).
Proof.
  unfold clean_text, clean_cell. split.
  - apply strip_no_quote, remove_quotes_no_quote.
  - apply strip_no_outer_space.
Qed.

Lemma replace_country_clean_text (s : string) :
  clean_text s -> clean_text (replace country_mapping s).
Proof.
  intros H. destruct (in_dec string_dec s country_aliases) as [Ha|Ha].
  - rewrite (replace_country_alias s Ha). split; reflexivity.
  - rewrite (replace_country_other s Ha). exact H.
Qed.

Section WarehouseText.
Variable to_numeric_cell : string -> option (option Qc).
Variable to_datetime_cell : string -> option Timestamp.

(** After a run that succeeds, no text of the two dimension tables holds
    a double quote or starts or ends with whitespace. *)
Lemma warehouse_text_is_clean (fs : FileSystem) (w : Warehouse) :
  etl_tables to_numeric_cell to_datetime_cell fs = Some w ->
  (forall d, In d (dim_clients w) ->
     clean_text (nom d) /\ clean_text (ville d) /\ clean_text (pays d)
     /\ clean_text (segment d))
  /\ forall p, In p (dim_produits w) ->
       clean_text (nom_produit p) /\ clean_text (categorie p).
Proof.
  intros H.
  destruct (warehouse_rows_of_extracts to_numeric_cell to_datetime_cell fs w H)
    as [rc [rp [rv [_ [_ [_ [Hc [Hp _]]]]]]]].
  rewrite Hc, Hp. split.
  - intros d Hd. unfold drop_duplicates in Hd. apply unique_In in Hd.
    apply in_map_iff in Hd. destruct Hd as [c [<- Hc']].
    apply dropna_In, in_map_iff in Hc'. destruct Hc' as [r [Hr _]].
    unfold cleaned_client in Hr.
    destruct (to_numeric_cell (clean_cell (client_id r))) as [[i|]|];
      try discriminate.
    inversion Hr; subst. simpl.
    repeat split;
      try apply clean_cell_clean_text;
      apply (replace_country_clean_text _ (clean_cell_clean_text _)).
  - intros p Hp'. unfold drop_duplicates in Hp'. apply unique_In in Hp'.
    apply dropna_In, in_map_iff in Hp'. destruct Hp' as [r [Hr _]].
    unfold cleaned_produit in Hr.
    destruct (to_numeric_cell (clean_cell (produit_id r))) as [[i|]|];
      try discriminate;
      destruct (to_numeric_cell (clean_cell (prix r))) as [[x|]|];
      try discriminate.
    inversion Hr; subst. simpl. split; apply clean_cell_clean_text.
Qed.

End WarehouseText.

(* ================================================================== *)
(** ** Keys of the cube and the empty fact table *)
(* ================================================================== *)

(** Each dimension part of a row of the cube is a row of its dimension
    table and carries the key of the sale it is joined to: the cube never
    pairs a sale with a client, a product or a date other than its own. *)
Lemma cube_parts_match_keys (ventes : list DfVente) (clients : list DfClient)
    (produits : list DfProduit) (times : list DfTemps) (r : CubeRow) :
  In r (df_cube ventes clients produits times) ->
  In (vente r) ventes
  /\ (forall c, client r = Some c ->
        In c clients /\ client_id c = v_client_id (vente r))
  /\ (forall p, produit r = Some p ->
        In p produits /\ produit_id p = v_produit_id (vente r))
  /\ (forall t, temps r = Some t ->
        In t times /\ t_date t = v_date (vente r)).
Proof.
  unfold df_cube. rewrite in_map_iff.
  intros [[[[f c] p] t] [<- H]]. simpl.
  apply merge_left_In in H. destruct H as [H Ht]. simpl in Ht.
  apply merge_left_In in H. destruct H as [H Hp]. simpl in Hp.
  apply merge_left_In in H. destruct H as [H Hc].
  split; [exact H|]. split; [|split].
  - intros c' E. inversion E; subst. destruct Hc as [Hc1 Hc2].
    split; [exact Hc1|apply on_client_id_true, Hc2].
  - intros p' E. inversion E; subst. destruct Hp as [Hp1 Hp2].
    split; [exact Hp1|apply on_produit_id_true, Hp2].
  - intros t' E. inversion E; subst. destruct Ht as [Ht1 Ht2].
    split; [exact Ht1|apply on_date_true, Ht2].
Qed.

Lemma dropna_all_None {A B : Type} (f : A -> option B) (l : list A) :
  (forall a, In a l -> f a = None) -> dropna (map f l) = [].
Proof.
  induction l as [|a l IH]; simpl; intros H; [reflexivity|].
  rewrite (H a (or_introl eq_refl)). apply IH. auto.
Qed.

Section EmptyFacts.
Variable to_numeric_cell : string -> option (option Qc).
Variable to_datetime_cell : string -> option Timestamp.
Variable is_na : string -> bool.

(** A run can succeed and keep no sale: when every sale of the extract has
    an unreadable date or a number read as NaN, the fact table and the
    time dimension are written empty, and the cube assembled from them is
    empty, whatever the two dimensions hold. *)
Lemma no_sale_kept (fs : FileSystem) (w : Warehouse) (rv : list RawVente) :
  etl_tables to_numeric_cell to_datetime_cell fs = Some w ->
  Ventes_csv fs = Some rv ->
  (forall r, In r rv ->
     cleaned_vente to_numeric_cell to_datetime_cell r = None) ->
  fact_ventes w = [] /\ dim_temps w = []
  /\ load_and_merge_data is_na
       (snd (run_etl to_numeric_cell to_datetime_cell fs))
     = Some [].
Proof.
  intros H Hv Hnone.
  destruct (warehouse_rows_of_extracts to_numeric_cell to_datetime_cell fs w H)
    as [rc [rp [rv' [_ [_ [Hv' [_ [_ Hf]]]]]]]].
  rewrite Hv in Hv'. inversion Hv'; subst rv'. clear Hv'.
  rewrite (dropna_all_None _ _ Hnone) in Hf.
  change (drop_duplicates FactVente_eq_dec []) with (@nil FactVente) in Hf.
  destruct (etl_tables_Some _ _ fs w H) as [e [_ [Hw Hrun]]].
  assert (Ht : dim_temps w = []).
  { pose proof (dim_temps_dates e) as P. rewrite <- Hw in P.
    rewrite Hf in P. apply Permutation_sym, Permutation_nil in P.
    destruct (dim_temps w); [reflexivity|discriminate]. }
  split; [exact Hf|]. split; [exact Ht|].
  rewrite Hrun. unfold load_and_merge_data, read_warehouse, to_csv. simpl.
  rewrite Hf, Ht. reflexivity.
Qed.

End EmptyFacts.

(* ================================================================== *)
(** ** The properties on the sample extracts *)
(* ================================================================== *)

Lemma NoDup_of_unique {A : Type} (eq_dec : forall x y : A, {x = y} + {x <> y})
    (l : list A) :
  unique eq_dec l = l -> NoDup l.
Proof. intros <-. apply unique_NoDup. Qed.

(** The sample cube is the merge of the sample tables. *)
Lemma ex_cube_df_cube (fs : FileSystem) :
  fst (ex_run fs) = EtlDone ->
  ex_cube fs
  = df_cube (ex_df_ventes fs) (ex_df_clients fs) (ex_df_produits fs)
      (ex_df_temps fs).
Proof.
  unfold ex_cube, ex_run, ex_df_ventes, ex_df_clients, ex_df_produits,
    ex_df_temps, ex_warehouse, etl_tables, run_etl.
  destruct (extract simple_to_numeric simple_to_datetime fs);
    [discriminate|reflexivity].
Qed.

(** C1 on the sample extracts, whose dimensions have unique keys: four
    sales reach the fact table and the cube has four rows. *)
Lemma df_cube_unique_keys_witness :
  List.length
    (df_cube (ex_df_ventes ex_fs) (ex_df_clients ex_fs)
       (ex_df_produits ex_fs) (ex_df_temps ex_fs))
  = List.length (ex_df_ventes ex_fs)
  /\ List.length (ex_df_ventes ex_fs) = 4%nat.
Proof.
  split; [|vm_compute; reflexivity].
  apply (df_cube_unique_keys (ex_df_ventes ex_fs) (ex_df_clients ex_fs)
           (ex_df_produits ex_fs) (ex_df_temps ex_fs)).
  - apply (NoDup_of_unique (option_eq_dec Qc_eq_dec)).
    vm_compute. reflexivity.
  - apply (NoDup_of_unique (option_eq_dec Qc_eq_dec)).
    vm_compute. reflexivity.
  - apply (NoDup_of_unique (option_eq_dec Timestamp_eq_dec)).
    vm_compute. reflexivity.
Defined.

(** C1 as stated fails: two client rows with the same client_id and
    different cities both survive the cleaning, and the one sale of that
    client gives two rows of the cube. *)
Lemma cube_larger_than_fact_table :
  fst (ex_run ex_fs_two_cities) = EtlDone
  /\ List.length (ex_df_ventes ex_fs_two_cities) = 1%nat
  /\ List.length (ex_cube ex_fs_two_cities) = 2%nat
  /\ List.length (ex_cube ex_fs_two_cities)
     <> List.length (ex_df_ventes ex_fs_two_cities).
Proof. vm_compute. repeat split. discriminate. Qed.





(** C4 on the sample cube: no sale of 2024 was made in the USA, and the
    KPIs of that empty subset are 0, 0 and the undefined mean. *)
Lemma kpis_of_empty_subset_witness :
  total_ventes (filtered_df (ex_cube ex_fs) [2024%Z] ["USA"] ["Bureau"])
  = Q2Qc 0
  /\ total_quantite (filtered_df (ex_cube ex_fs) [2024%Z] ["USA"] ["Bureau"])
     = Q2Qc 0
  /\ prix_moyen (filtered_df (ex_cube ex_fs) [2024%Z] ["USA"] ["Bureau"])
     = None.
Proof.
  assert (H : filtered_df (ex_cube ex_fs) [2024%Z] ["USA"] ["Bureau"] = [])
    by (vm_compute; reflexivity).
  pose proof (kpis_of_empty_subset (ex_cube ex_fs) [2024%Z] ["USA"]
                ["Bureau"] H) as K.
  exact (conj (proj1 K)
           (conj (proj1 (proj2 K)) (proj1 (proj2 (proj2 K))))).
Defined.

(** C5 on the sample cube: two product names, two rows. *)
Lemma top_produits_spec_witness :
  List.length (top_produits (ex_cube ex_fs)) = 2%nat.
Proof.
  rewrite (proj1 (proj2 (proj2 (proj2 (proj2
             (top_produits_spec (ex_cube ex_fs))))))).
  vm_compute. reflexivity.
Defined.

(** C5 as stated fails on the tie rule.  With the year 2023, every
    country and every category selected, the filtered rows are sales 100
    and 101: Stylo and Cahier are both sold 5 times; Stylo is in the first
    filtered row and Cahier in the second, yet Cahier comes first in the
    aggregate. *)
Lemma top_produits_ties_not_first_encountered :
  ex_filtered_2023
  = filtered_df (ex_cube ex_fs) [2023%Z] (pays_dispo (ex_cube ex_fs))
      (categories_dispo (ex_cube ex_fs))
  /\ map (fun r => vente_id (vente r)) ex_filtered_2023
     = [Some (Q2Qc 100); Some (Q2Qc 101)]
  /\ map fst (top_produits ex_filtered_2023) = ["Cahier"; "Stylo"]
  /\ map (fun a => this (snd a)) (top_produits ex_filtered_2023)
     = [inject_Z 5; inject_Z 5]
  /\ first_index "Stylo" ex_filtered_2023 = 0%nat
  /\ first_index "Cahier" ex_filtered_2023 = 1%nat
  /\ ties_first_encountered ex_filtered_2023 (top_produits ex_filtered_2023)
     = false.
Proof. vm_compute. repeat split. Qed.

(** C6 on a client of the sample extract. *)
Lemma country_normalization_witness :
  pays (replace_pays (mkClient (Q2Qc 2) "Bob" "Austin" "États-Unis" "Silver"))
  = "USA".
Proof.
  apply (country_normalization (ex_extracts ex_fs)).
  simpl. auto.
Defined.

(** C7 on the sample extracts. *)
Lemma dim_temps_spec_witness :
  NoDup (map t_date (dim_temps (build_warehouse (ex_extracts ex_fs)))).
Proof. exact (proj1 (dim_temps_spec (ex_extracts ex_fs))). Defined.

(** C8 on a file system without the product extract and without the
    product dimension. *)
Lemma missing_file_is_fatal_witness :
  etl_tables simple_to_numeric simple_to_datetime ex_fs_no_produits = None
  /\ load_and_merge_data simple_is_na ex_fs_no_produits = None.
Proof.
  split.
  - apply (proj1 (missing_file_is_fatal simple_to_numeric simple_to_datetime
                    simple_is_na ex_fs_no_produits)).
    right. left. reflexivity.
  - apply (proj2 (missing_file_is_fatal simple_to_numeric simple_to_datetime
                    simple_is_na ex_fs_no_produits)).
    right. left. reflexivity.
Defined.


(** C10 on the sample extracts. *)
Lemma time_dimension_covers_facts_witness :
  NoDup (map t_date (dim_temps (ex_warehouse ex_fs))).
Proof.
  assert (H : etl_tables simple_to_numeric simple_to_datetime ex_fs
              = Some (ex_warehouse ex_fs)) by (vm_compute; reflexivity).
  exact (proj1 (time_dimension_covers_facts simple_to_numeric
                  simple_to_datetime simple_is_na ex_fs (ex_warehouse ex_fs)
                  H)).
Defined.

(** A name between double quotes, cleaned. *)
Lemma clean_cell_quoted_witness : clean_cell (quoted "Alice") = "Alice".
Proof. apply (clean_cell_quoted "Alice"); vm_compute; reflexivity. Defined.

(** The tables of the sample run, read off the sample extracts. *)
Lemma warehouse_row_by_row_witness :
  fact_ventes (ex_warehouse ex_fs)
  = drop_duplicates FactVente_eq_dec
      (dropna (map (cleaned_vente simple_to_numeric simple_to_datetime)
                 ex_ventes)).
Proof.
  assert (H : etl_tables simple_to_numeric simple_to_datetime ex_fs
              = Some (ex_warehouse ex_fs)) by (vm_compute; reflexivity).
  destruct (warehouse_row_by_row simple_to_numeric simple_to_datetime ex_fs
              (ex_warehouse ex_fs) H)
    as [rc [rp [rv [_ [_ [Hv [_ [_ Hf]]]]]]]].
  inversion Hv; subst. exact Hf.
Defined.


(** Bob, recorded under two spellings, is one row of the dimension. *)
Lemma alias_spellings_collapse_witness :
  count_occ DimClient_eq_dec
    (dim_clients (build_warehouse (ex_extracts ex_fs_two_spellings)))
    (replace_pays (mkClient (Q2Qc 2) "Bob" "Austin" "États-Unis" "Silver"))
  = 1%nat.
Proof.
  apply (alias_spellings_collapse (ex_extracts ex_fs_two_spellings)
           (mkClient (Q2Qc 2) "Bob" "Austin" "États-Unis" "Silver")
           (mkClient (Q2Qc 2) "Bob" "Austin" "US" "Silver"));
    try reflexivity.
  - vm_compute. left. reflexivity.
  - vm_compute. right. left. reflexivity.
  - simpl. auto.
  - simpl. auto.
Defined.

(** Of eleven products the least sold is left out, and it is sold no more
    than the one sold ten times. *)
Lemma top_produits_keeps_largest_witness :
  (Q2Qc (inject_Z 0) <= Q2Qc (inject_Z 10))%Qc.
Proof.
  apply (top_produits_keeps_largest ex_eleven_products "p10" "p00").
  - vm_compute. left. reflexivity.
  - exists (ex_product_row 0 "p00"). split; [|reflexivity].
    vm_compute. left. reflexivity.
  - vm_compute. reflexivity.
  - vm_compute. intros H.
    repeat match goal with
           | H : _ \/ _ |- _ => destruct H as [H|H]; [discriminate H|]
           end.
    exact H.
Defined.

(** The sales of 2023 and of 2024 add up to the sales of both years. *)
Lemma totals_split_by_year_witness :
  total_ventes
    (filtered_df (ex_cube ex_fs) ([2023%Z] ++ [2024%Z]) ["USA"; "France"]
       ["Bureau"])
  = (total_ventes
       (filtered_df (ex_cube ex_fs) [2023%Z] ["USA"; "France"] ["Bureau"])
     + total_ventes
         (filtered_df (ex_cube ex_fs) [2024%Z] ["USA"; "France"]
            ["Bureau"]))%Qc.
Proof.
  apply (totals_split_by_year (ex_cube ex_fs) [2023%Z] [2024%Z]).
  intros y [<-|[]] [E|[]]. discriminate E.
Defined.

(** The sample cube read from its last row to its first. *)
Lemma row_order_is_irrelevant_witness :
  pays_dispo (ex_cube ex_fs) = pays_dispo (rev (ex_cube ex_fs))
  /\ top_clients (filtered_df (ex_cube ex_fs) [2023%Z] ["USA"] ["Bureau"])
     = top_clients
         (filtered_df (rev (ex_cube ex_fs)) [2023%Z] ["USA"] ["Bureau"]).
Proof.
  pose proof (row_order_is_irrelevant (ex_cube ex_fs) (rev (ex_cube ex_fs))
                (Permutation_rev (ex_cube ex_fs))) as H.
  split; [exact (proj1 (proj2 H))|].
  exact (proj2 (proj2 (proj2 (proj2 (proj2 (proj2
           (proj2 (proj2 (proj2 H)) [2023%Z] ["USA"] ["Bureau"]))))))).
Defined.

(** The sample run, then the cube. *)
Lemma cube_after_run_witness :
  exists cube,
    load_and_merge_data simple_is_na (snd (ex_run ex_fs)) = Some cube
    /\ total_ventes cube
       = sum_col
           (map montant (read_fact_ventes (fact_ventes (ex_warehouse ex_fs)))).
Proof.
  assert (H : etl_tables simple_to_numeric simple_to_datetime ex_fs
              = Some (ex_warehouse ex_fs)) by (vm_compute; reflexivity).
  destruct (cube_after_run simple_to_numeric simple_to_datetime simple_is_na
              ex_fs (ex_warehouse ex_fs) H) as [cube [Hc [_ [_ Hu]]]].
  exists cube. split; [exact Hc|].
  apply Hu.
  - apply (NoDup_of_unique Qc_eq_dec). vm_compute. reflexivity.
  - apply (NoDup_of_unique Qc_eq_dec). vm_compute. reflexivity.
Defined.

(** Sale 104 of the sample cube names client 9, which is in no row of the
    client dimension: whatever is selected, it is not shown. *)
Lemma null_country_rows_witness :
  ~ In (nth 3 (ex_cube ex_fs) (ex_product_row 0 ""))
      (filtered_df (ex_cube ex_fs) [2023%Z] ["USA"; "France"] ["Bureau"]).
Proof.
  assert (Hin : In (nth 3 (ex_cube ex_fs) (ex_product_row 0 ""))
                  (df_cube (ex_df_ventes ex_fs) (ex_df_clients ex_fs)
                     (ex_df_produits ex_fs) (ex_df_temps ex_fs))).
  { rewrite <- (ex_cube_df_cube ex_fs) by (vm_compute; reflexivity).
    apply nth_In. vm_compute. lia. }
  apply (proj2 (null_country_rows simple_is_na
                  (dim_clients (ex_warehouse ex_fs)) (ex_df_ventes ex_fs)
                  (ex_df_produits ex_fs) (ex_df_temps ex_fs) _ Hin)).
  vm_compute. reflexivity.
Defined.

(** The text of the sample warehouse. *)
Lemma warehouse_text_is_clean_witness :
  Forall (fun d : DimClient => clean_text (pays d))
    (dim_clients (ex_warehouse ex_fs)).
Proof.
  assert (H : etl_tables simple_to_numeric simple_to_datetime ex_fs
              = Some (ex_warehouse ex_fs)) by (vm_compute; reflexivity).
  apply Forall_forall. intros d Hd.
  apply (proj1 (warehouse_text_is_clean simple_to_numeric simple_to_datetime
                  ex_fs (ex_warehouse ex_fs) H) d Hd).
Defined.

(** The first row of the sample cube is a sale of the sample fact table. *)
Lemma cube_parts_match_keys_witness :
  In (vente (nth 0 (ex_cube ex_fs) (ex_product_row 0 "")))
    (ex_df_ventes ex_fs).
Proof.
  assert (Hin : In (nth 0 (ex_cube ex_fs) (ex_product_row 0 ""))
                  (df_cube (ex_df_ventes ex_fs) (ex_df_clients ex_fs)
                     (ex_df_produits ex_fs) (ex_df_temps ex_fs))).
  { rewrite <- (ex_cube_df_cube ex_fs) by (vm_compute; reflexivity).
    apply nth_In. vm_compute. lia. }
  exact (proj1 (cube_parts_match_keys _ _ _ _ _ Hin)).
Defined.

(** The run on the one sale without a readable date. *)
Lemma no_sale_kept_witness :
  load_and_merge_data simple_is_na (snd (ex_run ex_fs_no_date)) = Some [].
Proof.
  assert (H : etl_tables simple_to_numeric simple_to_datetime ex_fs_no_date
              = Some (ex_warehouse ex_fs_no_date))
    by (vm_compute; reflexivity).
  apply (no_sale_kept simple_to_numeric simple_to_datetime simple_is_na
           ex_fs_no_date (ex_warehouse ex_fs_no_date) [ex_vente_bad_date] H).
  - reflexivity.
  - intros r [<-|[]]. vm_compute. reflexivity.
Defined.
